(** * Howl client: the streaming wake-word pipeline of [howl_client.py]

    A shallow embedding of the class [HowlClient]
    (src/howl/client/howl_client.py): the audio callback [_on_audio] with its
    overlap buffer, the normaliser [_normalize_audio], the listener registry
    [add_listener] and the start-up method [start].

    Python objects are modelled as follows.
    - [bytes] objects are lists of [Byte.byte]; the list [self._audio_buf] is
      a list of such frames.
    - The client object is the record [HowlClient]; a method is a function
      from the client to a result, the client after the call and the log of
      the calls the method made (monad [M]).
    - The collaborators that live outside the repository (the inference
      engine, the listeners, [logging], [str.title]) are variables of the
      section [Client]; each call to one of them either returns or raises.
    - numpy's float64 and torch's float32 are the IEEE formats of
      [SpecFloat] with precision 53 / 24. *)

From Stdlib Require Import ZArith List Bool String Lia Arith QArith Qabs.
From Stdlib Require Import Strings.Byte.
From Stdlib Require Import Floats.SpecFloat.
Import ListNotations.

Local Open Scope Z_scope.

(** ** Python values *)

Definition bytes := list byte.

(** [b''.join(frames)] *)
Definition bytes_join (frames : list bytes) : bytes := List.concat frames.

Inductive Exn :=
| AttributeError (msg : string)
| ValueError (msg : string)
| KeyError (key : Z)
| OtherError (name : string).

Inductive outcome (A : Type) :=
| Returns (a : A)
| Raises (e : Exn).
Arguments Returns {A} a.
Arguments Raises {A} e.

Definition returned {A} (o : outcome A) : bool :=
  match o with Returns _ => true | Raises _ => false end.

(** ** numpy: [frombuffer], [astype], true division *)

Module Numpy.

Definition prec64 : Z := 53.
Definition emax64 : Z := 1024.
Definition prec32 : Z := 24.
Definition emax32 : Z := 128.

(** One int16 element from its two bytes, low byte first (the byte order of
    the platforms the client runs on). *)
Definition int16_of_bytes (lo hi : byte) : Z :=
  let u := Z.of_N (Byte.to_N lo) + 256 * Z.of_N (Byte.to_N hi) in
  if u <? 32768 then u else u - 65536.

(** [np.frombuffer(b, dtype=np.int16)]: fails when the size of the buffer
    is not a multiple of the element size. *)
Fixpoint frombuffer_int16 (b : bytes) : outcome (list Z) :=
  match b with
  | [] => Returns []
  | [_] => Raises (ValueError "buffer size must be a multiple of element size"%string)
  | lo :: hi :: rest =>
      match frombuffer_int16 rest with
      | Returns xs => Returns (int16_of_bytes lo hi :: xs)
      | Raises e => Raises e
      end
  end.

(** Conversion of an integer to float64, as for [astype(np.float)] and for
    the Python integer divisor. *)
Definition float64_of_Z (z : Z) : spec_float :=
  binary_normalize prec64 emax64 z 0 false.

Definition astype_float (xs : list Z) : list spec_float :=
  map float64_of_Z xs.

(** [arr / d] on a float64 array with a Python integer [d]. *)
Definition divide (arr : list spec_float) (d : Z) : list spec_float :=
  map (fun x => SFdiv prec64 emax64 x (float64_of_Z d)) arr.

(** [tensor.float()]: float64 to float32, rounding to nearest even. *)
Definition float32_of_float64 (x : spec_float) : spec_float :=
  match x with
  | S754_finite s m e => binary_round prec32 emax32 s m e
  | _ => x
  end.

(** The rational number a finite float denotes. *)
Definition Q_of_float (x : spec_float) : option Q :=
  match x with
  | S754_zero _ => Some 0%Q
  | S754_finite s m e =>
      let mag := (if 0 <=? e
                  then inject_Z (Z.pos m * 2 ^ e)
                  else Qmake (Z.pos m) (Z.to_pos (2 ^ (- e))))%Z in
      Some (Qred (if s then Qopp mag else mag))
  | _ => None
  end.


End Numpy.

(** ** torch and pyaudio values *)

Inductive Device := cpu | cuda (index : Z).

Record Tensor := { t_data : list spec_float; t_device : Device }.

Inductive PaFlag := paContinue | paComplete | paAbort.
Inductive PaFormat := paInt16.
Inductive Callback := self_on_audio.

Record DeviceInfo := { name : string }.

Record StreamConfig := {
  format : PaFormat;
  channels : Z;
  rate : Z;
  input : bool;
  input_device_index : nat;
  frames_per_buffer : Z;
  stream_callback : Callback
}.

Record Stream := { opened_with : StreamConfig; started : bool }.

(** [self._audio]: the devices the platform enumerates, and whether opening a
    stream with a given configuration fails. *)
Record PyAudio := {
  pa_devices : list DeviceInfo;
  pa_open_error : StreamConfig -> option Exn
}.

Record InferenceContext := { vocab : Z -> option string }.

Inductive LastData :=
| np_zeros (n : Z)
| last_frame (b : bytes).

(** ** [logging.info] with the keyword [end]

    Line 78 calls [logging.info(msg, end='\r')].  The standard library hands
    the keyword arguments on to [Logger._log] only when a record is made,
    that is when the level INFO is enabled for the root logger; [_log] has
    no parameter [end], so the call then raises [TypeError].  When INFO is
    not enabled (the root logger starts at WARNING) the call returns without
    looking at its arguments. *)

Module Logging.

Definition info (info_enabled : bool) (msg : string) : outcome unit :=
  if info_enabled then Raises (OtherError "TypeError") else Returns tt.

End Logging.

(** ** Stub collaborators

    Concrete collaborators used to run the methods on examples. *)

Module Stub.

(** An engine that gives the same answer to every window. *)
Definition Engine : Type := outcome bool.
Definition infer (e : Engine) (inp : Tensor) : outcome bool * Engine := (e, e).
Definition sequence (e : Engine) : list Z := [3; 1; 2].

Definition context : InferenceContext :=
  {| vocab := fun x =>
       if x =? 1 then Some "fire"%string
       else if x =? 2 then Some "fox"%string
       else if x =? 3 then Some "hey"%string
       else None |}.

(** Listeners are numbered; listener 7 raises, the others return. *)
Definition Listener : Type := nat.
Definition call (lis : Listener) (arg : list Z) : outcome unit :=
  if Nat.eqb lis 7 then Raises (OtherError "RuntimeError") else Returns tt.

Definition title (s : string) : string := s.
Definition logging_info (msg : string) : outcome unit := Returns tt.

(** [str.title] on ASCII text: a letter is put in upper case when the
    character before it is not a letter and in lower case when it is. *)
Definition is_lower (ch : Ascii.ascii) : bool :=
  ((97 <=? Ascii.nat_of_ascii ch) && (Ascii.nat_of_ascii ch <=? 122))%nat.
Definition is_upper (ch : Ascii.ascii) : bool :=
  ((65 <=? Ascii.nat_of_ascii ch) && (Ascii.nat_of_ascii ch <=? 90))%nat.
Definition upper (ch : Ascii.ascii) : Ascii.ascii :=
  if is_lower ch then Ascii.ascii_of_nat (Ascii.nat_of_ascii ch - 32) else ch.
Definition lower (ch : Ascii.ascii) : Ascii.ascii :=
  if is_upper ch then Ascii.ascii_of_nat (Ascii.nat_of_ascii ch + 32) else ch.
Fixpoint title_from (previous_is_cased : bool) (s : string) : string :=
  match s with
  | EmptyString => EmptyString
  | String ch rest =>
      if is_lower ch || is_upper ch
      then String (if previous_is_cased then lower ch else upper ch)
                  (title_from true rest)
      else String ch (title_from false rest)
  end.
Definition ascii_title (s : string) : string := title_from false s.

Definition audio (names : list string) : PyAudio :=
  {| pa_devices := map (fun n => {| name := n |}) names;
     pa_open_error := fun _ => None |}.

(** The hub knows one model; moving an engine to a device returns it. *)
Definition hub_load (name : string) : outcome (Engine * InferenceContext) :=
  if String.eqb name "hey_fire_fox" then Returns (Returns true, context)
  else Raises (OtherError "RuntimeError").
Definition engine_to (e : Engine) (d : Device) : outcome Engine := Returns e.

(** A stream that is active for its first three polls. *)
Definition is_active (st : Stream) (n : nat) : bool := (n <? 3)%nat.

(** One frame of two samples of silence. *)
Definition silence : bytes := [x00; x00; x00; x00].

(** One frame holding the samples 1 and -2. *)
Definition blip : bytes := [x01; x00; xfe; xff].

End Stub.

(** ** The metrics of [generate_precise_roc.py]

    [get_metrics] (lines 13-55) reads, for every threshold, eight cells of
    the sheet named after it and derives four rates.  The workbook is a
    partial map from sheet names to sheets; a sheet gives, for a cell name,
    what [float(sheet[cell].value)] returns or raises.  Python's float
    division raises on a zero divisor. *)

Module Roc.

Definition Sheet : Type := string -> outcome spec_float.
Definition Workbook : Type := string -> option Sheet.

Definition and_then {A B} (o : outcome A) (k : A -> outcome B) : outcome B :=
  match o with
  | Returns a => k a
  | Raises e => Raises e
  end.

Notation "x <-- o ;; k" := (and_then o (fun x => k))
  (at level 61, o at next level, right associativity).

(** [wb[key]] *)
Definition getitem (wb : Workbook) (key : string) : outcome Sheet :=
  match wb key with
  | Some sheet => Returns sheet
  | None => Raises (OtherError "KeyError")
  end.

(** Reading a local variable that only some branches assign. *)
Definition local (v : option spec_float) : outcome spec_float :=
  match v with
  | Some x => Returns x
  | None => Raises (OtherError "UnboundLocalError")
  end.

Definition is_zero (x : spec_float) : bool :=
  match x with
  | S754_zero _ => true
  | _ => false
  end.

(** [x / y] on Python floats. *)
Definition truediv (x y : spec_float) : outcome spec_float :=
  if is_zero y then Raises (OtherError "ZeroDivisionError")
  else Returns (SFdiv Numpy.prec64 Numpy.emax64 x y).

(** [x + y] on Python floats. *)
Definition add (x y : spec_float) : spec_float :=
  SFadd Numpy.prec64 Numpy.emax64 x y.

(** The float64 values of the literals of lines 21, 22, 30 and 31. *)
Definition hey_ff_dev_len : spec_float := S754_finite false 5871119997555712 (-39).
Definition hey_ff_test_len : spec_float := S754_finite false 5697829234077074 (-39).
Definition hey_snips_dev_len : spec_float := S754_finite false 6331357955576851 (-37).
Definition hey_snips_test_len : spec_float := S754_finite false 6466131890431569 (-37).

(** The two lengths that the branches of lines 19-31 assign and the loop
    reads; the other locals of the first branch are never read. *)
Definition lengths (exp_type : string) : option spec_float * option spec_float :=
  if String.eqb exp_type "hey_ff"
  then (Some hey_ff_dev_len, Some hey_ff_test_len)
  else if String.eqb exp_type "hey_snips"
  then (Some hey_snips_dev_len, Some hey_snips_test_len)
  else (None, None).

Section Metrics.

(** [str(threshold)] *)
Variable py_str : spec_float -> string.

Definition Row : Type := (spec_float * spec_float * spec_float * spec_float)%type.

(** One iteration of the loop (lines 35-53): the false alarms per hour and
    the false rejection rate of the dev cells, then those of the test
    cells. *)
Definition metrics_row (total_dev_len total_test_len : option spec_float)
    (wb : Workbook) (threshold : spec_float) : outcome Row :=
  sheet <-- getitem wb (py_str threshold) ;;
  dev_tp <-- sheet "C3"%string ;;
  dev_fn <-- sheet "F3"%string ;;
  dev_tn <-- sheet "J3"%string ;;
  dev_fp <-- sheet "K3"%string ;;
  dev_len <-- local total_dev_len ;;
  dev_hours <-- truediv dev_len (Numpy.float64_of_Z 3600) ;;
  dev_far <-- truediv dev_fp dev_hours ;;
  dev_frr <-- truediv dev_fn (add dev_fn dev_tp) ;;
  test_tp <-- sheet "O3"%string ;;
  test_fn <-- sheet "R3"%string ;;
  test_tn <-- sheet "V3"%string ;;
  test_fp <-- sheet "W3"%string ;;
  test_len <-- local total_test_len ;;
  test_hours <-- truediv test_len (Numpy.float64_of_Z 3600) ;;
  test_far <-- truediv test_fp test_hours ;;
  test_frr <-- truediv test_fn (add test_fn test_tp) ;;
  Returns (dev_far, dev_frr, test_far, test_frr).

Definition Rates : Type :=
  (list spec_float * list spec_float * list spec_float * list spec_float)%type.

(** The loop of lines 34-53 with the four lists built so far. *)
Fixpoint metrics_loop (total_dev_len total_test_len : option spec_float)
    (wb : Workbook) (thresholds : list spec_float)
    (dev_far dev_frr test_far test_frr : list spec_float) : outcome Rates :=
  match thresholds with
  | [] => Returns (dev_far, dev_frr, test_far, test_frr)
  | threshold :: rest =>
      row <-- metrics_row total_dev_len total_test_len wb threshold ;;
      match row with
      | (far, frr, far', frr') =>
          metrics_loop total_dev_len total_test_len wb rest
            (dev_far ++ [far]) (dev_frr ++ [frr])
            (test_far ++ [far']) (test_frr ++ [frr'])
      end
  end.

(** [get_metrics] (lines 13-55) *)
Definition get_metrics (exp_type : string) (wb : Workbook)
    (thresholds : list spec_float) : outcome Rates :=
  metrics_loop (fst (lengths exp_type)) (snd (lengths exp_type)) wb thresholds
               [] [] [] [].

(** What a sheet must hold for its row to be computed, and the row. *)
Definition row_of (dev_len test_len : spec_float) (sheet : Sheet) (row : Row)
  : Prop :=
  exists dev_tp dev_fn dev_tn dev_fp test_tp test_fn test_tn test_fp,
    sheet "C3"%string = Returns dev_tp /\ sheet "F3"%string = Returns dev_fn /\
    sheet "J3"%string = Returns dev_tn /\ sheet "K3"%string = Returns dev_fp /\
    sheet "O3"%string = Returns test_tp /\ sheet "R3"%string = Returns test_fn /\
    sheet "V3"%string = Returns test_tn /\ sheet "W3"%string = Returns test_fp /\
    is_zero (add dev_fn dev_tp) = false /\
    is_zero (add test_fn test_tp) = false /\
    row =
      (SFdiv Numpy.prec64 Numpy.emax64 dev_fp
         (SFdiv Numpy.prec64 Numpy.emax64 dev_len (Numpy.float64_of_Z 3600)),
       SFdiv Numpy.prec64 Numpy.emax64 dev_fn (add dev_fn dev_tp),
       SFdiv Numpy.prec64 Numpy.emax64 test_fp
         (SFdiv Numpy.prec64 Numpy.emax64 test_len (Numpy.float64_of_Z 3600)),
       SFdiv Numpy.prec64 Numpy.emax64 test_fn (add test_fn test_tp)).

(** Two sheets that differ at most in the true negatives (cells J3 and
    V3), which both hold a number. *)
Definition same_but_tn (s1 s2 : Sheet) : Prop :=
  (forall cell, cell <> "J3"%string -> cell <> "V3"%string -> s1 cell = s2 cell) /\
  (exists v1 v2, s1 "J3"%string = Returns v1 /\ s2 "J3"%string = Returns v2) /\
  (exists v1 v2, s1 "V3"%string = Returns v1 /\ s2 "V3"%string = Returns v2).

Definition same_but_tn_wb (wb1 wb2 : Workbook) : Prop :=
  forall key,
    match wb1 key, wb2 key with
    | Some s1, Some s2 => same_but_tn s1 s2
    | None, None => True
    | _, _ => False
    end.

Definition unzip (rows : list Row) : Rates :=
  (map (fun r => fst (fst (fst r))) rows, map (fun r => snd (fst (fst r))) rows,
   map (fun r => snd (fst r)) rows, map (fun r => snd r) rows).

End Metrics.

(** A workbook with the one sheet 0.5, whose cells hold [tp] true positives,
    [fn] false negatives, [tn] true negatives and 7 false positives. *)
Definition demo_str (t : spec_float) : string := "0.5".

Definition demo_sheet (tp fn tn : Z) : Sheet := fun cell =>
  if (String.eqb cell "J3" || String.eqb cell "V3")%bool
  then Returns (Numpy.float64_of_Z tn)
  else if (String.eqb cell "C3" || String.eqb cell "O3")%bool
  then Returns (Numpy.float64_of_Z tp)
  else if (String.eqb cell "F3" || String.eqb cell "R3")%bool
  then Returns (Numpy.float64_of_Z fn)
  else Returns (Numpy.float64_of_Z 7).

Definition demo_wb (tp fn tn : Z) : Workbook := fun key =>
  if String.eqb key "0.5" then Some (demo_sheet tp fn tn) else None.

End Roc.

(** ** The client object and its methods *)

Section Client.

(** The inference engine: the state of the engine object, its method
    [infer] (which may update that state and may raise) and its readable
    attribute [sequence]. *)
Variable Engine : Type.
Variable engine_infer : Engine -> Tensor -> outcome bool * Engine.
Variable engine_sequence : Engine -> list Z.

(** Listener callbacks: calling one with the token sequence returns or
    raises. *)
Variable Listener : Type.
Variable call_listener : Listener -> list Z -> outcome unit.

(** [str.title] and [logging.info(msg, end='\r')]. *)
Variable str_title : string -> string.
Variable logging_info : string -> outcome unit.

Record HowlClient := {
  listeners : list Listener;
  chunk_size : Z;
  device : Device;
  engine : option Engine;
  ctx : option InferenceContext;
  _audio : PyAudio;
  _audio_buf : list bytes;
  _audio_buf_len : Z;
  _audio_float_size : Z;
  last_data : LastData;
  stream : option Stream
}.

Definition set_listeners (v : list Listener) (s : HowlClient) : HowlClient :=
  {| listeners := v; chunk_size := chunk_size s; device := device s;
     engine := engine s; ctx := ctx s; _audio := _audio s;
     _audio_buf := _audio_buf s; _audio_buf_len := _audio_buf_len s;
     _audio_float_size := _audio_float_size s; last_data := last_data s;
     stream := stream s |}.

Definition set_engine (v : option Engine) (s : HowlClient) : HowlClient :=
  {| listeners := listeners s; chunk_size := chunk_size s; device := device s;
     engine := v; ctx := ctx s; _audio := _audio s;
     _audio_buf := _audio_buf s; _audio_buf_len := _audio_buf_len s;
     _audio_float_size := _audio_float_size s; last_data := last_data s;
     stream := stream s |}.

Definition set_audio_buf (v : list bytes) (s : HowlClient) : HowlClient :=
  {| listeners := listeners s; chunk_size := chunk_size s; device := device s;
     engine := engine s; ctx := ctx s; _audio := _audio s;
     _audio_buf := v; _audio_buf_len := _audio_buf_len s;
     _audio_float_size := _audio_float_size s; last_data := last_data s;
     stream := stream s |}.

Definition set_last_data (v : LastData) (s : HowlClient) : HowlClient :=
  {| listeners := listeners s; chunk_size := chunk_size s; device := device s;
     engine := engine s; ctx := ctx s; _audio := _audio s;
     _audio_buf := _audio_buf s; _audio_buf_len := _audio_buf_len s;
     _audio_float_size := _audio_float_size s; last_data := v;
     stream := stream s |}.

Definition set_stream (v : option Stream) (s : HowlClient) : HowlClient :=
  {| listeners := listeners s; chunk_size := chunk_size s; device := device s;
     engine := engine s; ctx := ctx s; _audio := _audio s;
     _audio_buf := _audio_buf s; _audio_buf_len := _audio_buf_len s;
     _audio_float_size := _audio_float_size s; last_data := last_data s;
     stream := v |}.

(** The attributes assigned by the constructor (lines 38-49); the torch
    device is passed already resolved. *)
Definition new_client (engine0 : option Engine) (context : option InferenceContext)
    (device0 : Device) (chunk_size0 : Z) (audio : PyAudio) : HowlClient :=
  {| listeners := [];
     chunk_size := chunk_size0;
     device := device0;
     engine := engine0;
     ctx := context;
     _audio := audio;
     _audio_buf := [];
     _audio_buf_len := 16;
     _audio_float_size := 32767;
     last_data := np_zeros chunk_size0;
     stream := None |}.

(** *** Calls and the method monad *)

(** The calls a method makes on the client itself, on a collaborator or on
    the audio platform, in the order they are made. *)
Inductive Event :=
| call_normalize_audio (audio_data : bytes)
| call_infer (inp : Tensor)
| call_logging_info (msg : string)
| call_lis (lis : Listener) (arg : list Z)
| call_get_device_count
| call_get_device_info_by_index (idx : nat)
| call_open (cfg : StreamConfig)
| call_start_stream.

Definition Run (A : Type) : Type := (outcome A * list Event * HowlClient)%type.

Definition result {A} (r : Run A) : outcome A := fst (fst r).
Definition calls {A} (r : Run A) : list Event := snd (fst r).
Definition after {A} (r : Run A) : HowlClient := snd r.

Definition M (A : Type) : Type := HowlClient -> Run A.

Definition ret {A} (a : A) : M A := fun self => (Returns a, [], self).

Definition raise {A} (e : Exn) : M A := fun self => (Raises e, [], self).

Definition bind {A B} (m : M A) (k : A -> M B) : M B := fun self =>
  match m self with
  | (Returns a, t1, self1) =>
      match k a self1 with (o, t2, self2) => (o, t1 ++ t2, self2) end
  | (Raises e, t1, self1) => (Raises e, t1, self1)
  end.

Definition get : M HowlClient := fun self => (Returns self, [], self).

Definition modify (f : HowlClient -> HowlClient) : M unit :=
  fun self => (Returns tt, [], f self).

Definition called {A} (ev : Event) (o : outcome A) : M A :=
  fun self => (o, [ev], self).

Notation "x <- m ;; k" := (bind m (fun x => k))
  (at level 61, m at next level, right associativity).
Notation "m ;;; k" := (bind m (fun _ => k))
  (at level 61, right associativity).

Fixpoint for_each {A} (xs : list A) (body : A -> M unit) : M unit :=
  match xs with
  | [] => ret tt
  | x :: rest => body x ;;; for_each rest body
  end.

Fixpoint map_M {A B} (f : A -> M B) (xs : list A) : M (list B) :=
  match xs with
  | [] => ret []
  | x :: rest => y <- f x ;; ys <- map_M f rest ;; ret (y :: ys)
  end.

(** *** Attribute access on the collaborators *)

Definition none_has_no (attr : string) : Exn :=
  AttributeError ("'NoneType' object has no attribute '" ++ attr ++ "'")%string.

(** [self.engine.infer(inp)] *)
Definition self_engine_infer (inp : Tensor) : M bool := fun self =>
  match engine self with
  | None => (Raises (none_has_no "infer"), [], self)
  | Some eng =>
      match engine_infer eng inp with
      | (o, eng') => (o, [call_infer inp], set_engine (Some eng') self)
      end
  end.

(** [self.engine.sequence] *)
Definition self_engine_sequence : M (list Z) := fun self =>
  match engine self with
  | None => (Raises (none_has_no "sequence"), [], self)
  | Some eng => (Returns (engine_sequence eng), [], self)
  end.

(** [self.ctx.vocab[x]] *)
Definition self_ctx_vocab (x : Z) : M string := fun self =>
  match ctx self with
  | None => (Raises (none_has_no "vocab"), [], self)
  | Some c =>
      match vocab c x with
      | Some w => (Returns w, [], self)
      | None => (Raises (KeyError x), [], self)
      end
  end.

(** *** Methods *)

(** [_normalize_audio] (lines 85-86), as a function of the divisor. *)
Definition normalize (size : Z) (audio_data : bytes) : outcome (list spec_float) :=
  match Numpy.frombuffer_int16 audio_data with
  | Returns xs => Returns (Numpy.divide (Numpy.astype_float xs) size)
  | Raises e => Raises e
  end.

Definition _normalize_audio (audio_data : bytes) : M (list spec_float) :=
  self <- get ;;
  called (call_normalize_audio audio_data)
         (normalize (_audio_float_size self) audio_data).

(** [torch.from_numpy(arr).float().to(device)] *)
Definition to_tensor (arr : list spec_float) (d : Device) : Tensor :=
  {| t_data := map Numpy.float32_of_float64 arr; t_device := d |}.

(** [_on_audio] (lines 62-83) *)
Definition _on_audio (in_data : bytes) : M (bytes * PaFlag) :=
  let data_ok := (in_data, paContinue) in
  modify (set_last_data (last_frame in_data)) ;;;
  modify (fun self => set_audio_buf (_audio_buf self ++ [in_data]) self) ;;;
  self <- get ;;
  if negb (Z.of_nat (List.length (_audio_buf self)) =? _audio_buf_len self)
  then ret data_ok
  else
    let audio_data := bytes_join (_audio_buf self) in
    modify (set_audio_buf (skipn 2 (_audio_buf self))) ;;;
    arr <- _normalize_audio audio_data ;;
    let inp := to_tensor arr (device self) in
    detected <- self_engine_infer inp ;;
    (if detected
     then
       seq <- self_engine_sequence ;;
       words <- map_M self_ctx_vocab seq ;;
       let phrase := str_title (String.concat " " words) in
       called (call_logging_info (phrase ++ " detected")%string)
              (logging_info (phrase ++ " detected")%string) ;;;
       ls <- (s <- get ;; ret (listeners s)) ;;
       for_each ls (fun lis =>
         arg <- self_engine_sequence ;;
         called (call_lis lis arg) (call_listener lis arg))
     else ret tt) ;;;
    ret data_ok.

(** [add_listener] (lines 127-129) *)
Definition add_listener (listener : Listener) : M unit :=
  modify (fun self => set_listeners (listeners self ++ [listener]) self).

(** The loop of [start] (lines 100-104) over the remaining indices. *)
Fixpoint choose_device (chosen_idx : nat) (idxs : list nat) : M nat :=
  match idxs with
  | [] => ret chosen_idx
  | idx :: rest =>
      self <- get ;;
      info <- called (call_get_device_info_by_index idx)
                (match nth_error (pa_devices (_audio self)) idx with
                 | Some i => Returns i
                 | None => Raises (OtherError "OSError")
                 end) ;;
      if String.eqb (name info) "pulse"
      then ret idx
      else choose_device chosen_idx rest
  end.

(** [start] (lines 88-114) *)
Definition start : M unit :=
  self <- get ;;
  match engine self with
  | None =>
      raise (AttributeError
        "Please provide an InferenceEngine or initialize using from_pretrained.")
  | Some _ =>
      match ctx self with
      | None =>
          raise (AttributeError
            "Please provide an InferenceContext or initialize using from_pretrained.")
      | Some _ =>
          count <- called call_get_device_count
                     (Returns (List.length (pa_devices (_audio self)))) ;;
          chosen_idx <- choose_device 0%nat (seq 0 count) ;;
          let cfg := {| format := paInt16;
                        channels := 1;
                        rate := 16000;
                        input := true;
                        input_device_index := chosen_idx;
                        frames_per_buffer := chunk_size self;
                        stream_callback := self_on_audio |} in
          stream0 <- called (call_open cfg)
                       (match pa_open_error (_audio self) cfg with
                        | Some e => Raises e
                        | None => Returns {| opened_with := cfg; started := false |}
                        end) ;;
          modify (set_stream (Some stream0)) ;;;
          called call_start_stream (Returns tt) ;;;
          modify (set_stream (Some {| opened_with := cfg; started := true |}))
      end
  end.

(** *** Observations on runs *)

(** The window handed to the normaliser, if the run emitted one. *)
Fixpoint emitted (tr : list Event) : option bytes :=
  match tr with
  | [] => None
  | call_normalize_audio w :: _ => Some w
  | _ :: rest => emitted rest
  end.

(** The listener invocations of a run, in order, with their argument. *)
Fixpoint lis_calls (tr : list Event) : list (Listener * list Z) :=
  match tr with
  | [] => []
  | call_lis lis arg :: rest => (lis, arg) :: lis_calls rest
  | _ :: rest => lis_calls rest
  end.

(** The audio callback invoked once per frame, each run with the client
    the previous run left. *)
Fixpoint feed (frames : list bytes) (self : HowlClient)
  : list (Run (bytes * PaFlag)) :=
  match frames with
  | [] => []
  | f :: rest => _on_audio f self :: feed rest (after (_on_audio f self))
  end.

(** The client after the callback has run on every frame. *)
Definition pushed (frames : list bytes) (self : HowlClient) : HowlClient :=
  fold_left (fun s f => after (_on_audio f s)) frames self.

(** A new client with listeners registered in the given order. *)
Definition registered (ls : list Listener) (self : HowlClient) : HowlClient :=
  fold_left (fun s l => after (add_listener l s)) ls self.

(** A client as constructed, with the listeners [ls] registered. *)
Definition fresh_client (engine0 : option Engine)
    (context : option InferenceContext) (device0 : Device) (chunk_size0 : Z)
    (audio : PyAudio) (ls : list Listener) : HowlClient :=
  registered ls (new_client engine0 context device0 chunk_size0 audio).

(** The length of the buffer after [k] pushes on a new client. *)
Definition buf_len_after (k : nat) : nat :=
  if (k <? 16)%nat then k else if Nat.even k then 14%nat else 15%nat.

(** Whether the [k]-th push (counted from 1) on a new client emits. *)
Definition emits_at (k : nat) : bool := (16 <=? k)%nat && Nat.even k.

(** Whether a run emitted a window. *)
Definition emits {A} (r : Run A) : bool :=
  match emitted (calls r) with Some _ => true | None => false end.

(** Whether the push of one more frame fills the buffer to its depth
    (the test of line 66, negated). *)
Definition fills (a : bytes) (self : HowlClient) : bool :=
  Z.of_nat (List.length (_audio_buf self ++ [a])) =? _audio_buf_len self.

(** A computation that touches no attribute of the client but [engine]. *)
Definition frozen {A} (m : M A) : Prop :=
  forall self, exists e, after (m self) = set_engine e self.

(** A computation that, when it returns, returns [v]. *)
Definition returns_only {A} (v : A) (m : M A) : Prop :=
  forall self,
    match result (m self) with
    | Returns x => x = v
    | Raises _ => True
    end.

(** The first index holding a device named pulse. *)
Fixpoint first_pulse (devs : list DeviceInfo) : option nat :=
  match devs with
  | [] => None
  | d :: rest =>
      if String.eqb (name d) "pulse" then Some 0%nat
      else option_map S (first_pulse rest)
  end.

(** The tensors handed to the engine in a run, in order. *)
Fixpoint infer_calls (tr : list Event) : list Tensor :=
  match tr with
  | [] => []
  | call_infer inp :: rest => inp :: infer_calls rest
  | _ :: rest => infer_calls rest
  end.

(** The log messages of a run, in order. *)
Fixpoint log_calls (tr : list Event) : list string :=
  match tr with
  | [] => []
  | call_logging_info msg :: rest => msg :: log_calls rest
  | _ :: rest => log_calls rest
  end.

(** The client after line 65 of a run: the frame is cached and appended. *)
Definition appended (a : bytes) (self : HowlClient) : HowlClient :=
  set_audio_buf (_audio_buf self ++ [a]) (set_last_data (last_frame a) self).

(** The client after line 70 of an emitting run: the two oldest frames of
    the filled buffer are gone. *)
Definition retired (a : bytes) (self : HowlClient) : HowlClient :=
  set_audio_buf (skipn 2 (_audio_buf self ++ [a]))
                (set_last_data (last_frame a) self).

(** Lines 75-81 of [_on_audio] on their own: what follows the answer of the
    engine (lemma [on_audio_emit_eq] relates it to [_on_audio]). *)
Definition notify (detected : bool) : M unit :=
  if detected
  then
    seq <- self_engine_sequence ;;
    words <- map_M self_ctx_vocab seq ;;
    let phrase := str_title (String.concat " " words) in
    called (call_logging_info (phrase ++ " detected")%string)
           (logging_info (phrase ++ " detected")%string) ;;;
    ls <- (s <- get ;; ret (listeners s)) ;;
    for_each ls (fun lis =>
      arg <- self_engine_sequence ;;
      called (call_lis lis arg) (call_listener lis arg))
  else ret tt.

(** A computation that leaves the client as it is and calls neither the
    normaliser nor the engine. *)
Definition notifying {A} (m : M A) : Prop :=
  forall self,
    after (m self) = self /\
    infer_calls (calls (m self)) = [] /\
    emitted (calls (m self)) = None.

(** The device indices queried in a run, in order. *)
Fixpoint info_calls (tr : list Event) : list nat :=
  match tr with
  | [] => []
  | call_get_device_info_by_index idx :: rest => idx :: info_calls rest
  | _ :: rest => info_calls rest
  end.

(** *** Loading a pretrained model and waiting for the stream *)

Definition set_ctx (v : option InferenceContext) (s : HowlClient) : HowlClient :=
  {| listeners := listeners s; chunk_size := chunk_size s; device := device s;
     engine := engine s; ctx := v; _audio := _audio s;
     _audio_buf := _audio_buf s; _audio_buf_len := _audio_buf_len s;
     _audio_float_size := _audio_float_size s; last_data := last_data s;
     stream := stream s |}.

(** [torch.hub.load('castorini/howl:howl-pip', name)] and [engine.to(device)]:
    each returns or raises. *)
Variable hub_load : string -> outcome (Engine * InferenceContext).
Variable engine_to : Engine -> Device -> outcome Engine.

(** The answer of [stream.is_active()] at the poll number [n] (from 0). *)
Variable is_active : Stream -> nat -> bool.

(** A call to a collaborator that the call log does not record. *)
Definition external {A} (o : outcome A) : M A := fun self => (o, [], self).

(** [from_pretrained] (lines 121-125) *)
Definition from_pretrained (name : string) : M unit :=
  loaded <- external (hub_load name) ;;
  self <- get ;;
  moved <- external (engine_to (fst loaded) (device self)) ;;
  modify (set_engine (Some moved)) ;;;
  modify (set_ctx (Some (snd loaded))).

(** The calls of [join]. *)
Inductive JoinCall :=
| call_is_active
| call_sleep (seconds : spec_float).

(** The float64 literal [0.1]. *)
Definition one_tenth : spec_float := S754_finite false 7205759403792794 (-56).

(** The loop of [join] (lines 118-119) when [polls] answers of [is_active]
    have been consumed; [None] when [fuel] iterations were not enough.  The
    method assigns nothing, so the client is only read. *)
Fixpoint join_loop (fuel polls : nat) (self : HowlClient)
  : option (outcome unit * list JoinCall) :=
  match fuel with
  | O => None
  | S fuel' =>
      match stream self with
      | None =>
          Some (Raises (AttributeError
                  "'HowlClient' object has no attribute 'stream'"), [])
      | Some st =>
          if is_active st polls
          then match join_loop fuel' (S polls) self with
               | Some (o, tr) =>
                   Some (o, call_is_active :: call_sleep one_tenth :: tr)
               | None => None
               end
          else Some (Returns tt, [call_is_active])
      end
  end.

(** [join] (lines 116-119) *)
Definition join (fuel : nat) (self : HowlClient)
  : option (outcome unit * list JoinCall) :=
  join_loop fuel 0 self.

(** ** The method monad: projections of a bind *)

Lemma result_bind {A B} (m : M A) (k : A -> M B) (self : HowlClient) :
  result (bind m k self) =
  match result (m self) with
  | Returns a => result (k a (after (m self)))
  | Raises e => Raises e
  end.
Proof.
  unfold bind, result, after.
  destruct (m self) as [[[a | e] t1] s1]; simpl; [ | reflexivity ].
  destruct (k a s1) as [[o t2] s2]; reflexivity.
Qed.

Lemma calls_bind {A B} (m : M A) (k : A -> M B) (self : HowlClient) :
  calls (bind m k self) =
  calls (m self) ++
  match result (m self) with
  | Returns a => calls (k a (after (m self)))
  | Raises _ => []
  end.
Proof.
  unfold bind, result, calls, after.
  destruct (m self) as [[[a | e] t1] s1]; simpl.
  - destruct (k a s1) as [[o t2] s2]; reflexivity.
  - symmetry; apply app_nil_r.
Qed.

Lemma after_bind {A B} (m : M A) (k : A -> M B) (self : HowlClient) :
  after (bind m k self) =
  match result (m self) with
  | Returns a => after (k a (after (m self)))
  | Raises _ => after (m self)
  end.
Proof.
  unfold bind, result, after.
  destruct (m self) as [[[a | e] t1] s1]; simpl; [ | reflexivity ].
  destruct (k a s1) as [[o t2] s2]; reflexivity.
Qed.

(** ** Computations that touch no attribute but [engine] *)

Lemma set_engine_same (self : HowlClient) : set_engine (engine self) self = self.
Proof. destruct self; reflexivity. Qed.

Lemma frozen_ret {A} (a : A) : frozen (ret a).
Proof. intros self; exists (engine self); symmetry; apply set_engine_same. Qed.

Lemma frozen_raise {A} (e : Exn) : frozen (@raise A e).
Proof. intros self; exists (engine self); symmetry; apply set_engine_same. Qed.

Lemma frozen_get : frozen get.
Proof. intros self; exists (engine self); symmetry; apply set_engine_same. Qed.

Lemma frozen_called {A} (ev : Event) (o : outcome A) : frozen (called ev o).
Proof. intros self; exists (engine self); symmetry; apply set_engine_same. Qed.

Lemma frozen_bind {A B} (m : M A) (k : A -> M B) :
  frozen m -> (forall a, frozen (k a)) -> frozen (bind m k).
Proof.
  intros Hm Hk self. rewrite after_bind.
  destruct (Hm self) as [e1 H1].
  destruct (result (m self)) as [a | e].
  - destruct (Hk a (after (m self))) as [e2 H2].
    exists e2. rewrite H2, H1. reflexivity.
  - exists e1. exact H1.
Qed.

Lemma frozen_self_engine_infer (inp : Tensor) : frozen (self_engine_infer inp).
Proof.
  intros self. unfold self_engine_infer, after.
  destruct (engine self) as [eng | ] eqn:E.
  - destruct (engine_infer eng inp) as [o eng']. exists (Some eng'). reflexivity.
  - exists None. simpl. rewrite <- E. symmetry. apply set_engine_same.
Qed.

Lemma frozen_self_engine_sequence : frozen self_engine_sequence.
Proof.
  intros self. exists (engine self). rewrite set_engine_same.
  unfold self_engine_sequence, after.
  destruct (engine self); reflexivity.
Qed.

Lemma frozen_self_ctx_vocab (x : Z) : frozen (self_ctx_vocab x).
Proof.
  intros self. exists (engine self). rewrite set_engine_same.
  unfold self_ctx_vocab, after.
  destruct (ctx self) as [c | ]; [ destruct (vocab c x) | ]; reflexivity.
Qed.

Lemma frozen_for_each {A} (xs : list A) (body : A -> M unit) :
  (forall x, frozen (body x)) -> frozen (for_each xs body).
Proof.
  intros Hb. induction xs as [ | x rest IH]; simpl.
  - apply frozen_ret.
  - apply frozen_bind; [ apply Hb | intros _; exact IH ].
Qed.

Lemma frozen_map_M {A B} (f : A -> M B) (xs : list A) :
  (forall x, frozen (f x)) -> frozen (map_M f xs).
Proof.
  intros Hf. induction xs as [ | x rest IH]; simpl.
  - apply frozen_ret.
  - apply frozen_bind; [ apply Hf | intros y ].
    apply frozen_bind; [ exact IH | intros ys; apply frozen_ret ].
Qed.

Lemma frozen_normalize_audio (audio_data : bytes) :
  frozen (_normalize_audio audio_data).
Proof.
  unfold _normalize_audio. apply frozen_bind; [ apply frozen_get | intros s ].
  apply frozen_called.
Qed.

Lemma frozen_if {A} (b : bool) (m1 m2 : M A) :
  frozen m1 -> frozen m2 -> frozen (if b then m1 else m2).
Proof. destruct b; auto. Qed.

Create HintDb frozen.
#[local] Hint Resolve frozen_ret frozen_raise frozen_get frozen_called
  frozen_self_engine_infer frozen_self_engine_sequence frozen_self_ctx_vocab
  frozen_normalize_audio : frozen.

Ltac frozen_tac :=
  repeat first
    [ progress eauto with frozen
    | apply frozen_bind; [ | intros ? ]
    | apply frozen_if
    | apply frozen_for_each; intros ?
    | apply frozen_map_M; intros ? ].

(** ** One run of the callback *)

Lemma on_audio_after (a : bytes) (self : HowlClient) :
  exists e,
    after (_on_audio a self) =
    set_engine e
      (set_audio_buf
         (if fills a self then skipn 2 (_audio_buf self ++ [a])
          else _audio_buf self ++ [a])
         (set_last_data (last_frame a) self)).
Proof.
  unfold _on_audio, fills. rewrite !after_bind.
  cbn [result after modify get fst snd _audio_buf set_audio_buf set_last_data
       _audio_buf_len].
  destruct (Z.of_nat (List.length (_audio_buf self ++ [a])) =? _audio_buf_len self);
    cbn [negb].
  - rewrite after_bind. cbn [result after modify fst snd].
    match goal with
    | |- exists e, after (?m ?s) = _ => assert (F : frozen m) by frozen_tac;
        destruct (F s) as [e He]; exists e; rewrite He
    end.
    reflexivity.
  - exists (engine self). reflexivity.
Qed.

Lemma on_audio_buf (a : bytes) (self : HowlClient) :
  _audio_buf (after (_on_audio a self)) =
  if fills a self then skipn 2 (_audio_buf self ++ [a]) else _audio_buf self ++ [a].
Proof. destruct (on_audio_after a self) as [e ->]. reflexivity. Qed.

Lemma on_audio_buf_len (a : bytes) (self : HowlClient) :
  _audio_buf_len (after (_on_audio a self)) = _audio_buf_len self.
Proof. destruct (on_audio_after a self) as [e ->]. reflexivity. Qed.

Lemma on_audio_last_data (a : bytes) (self : HowlClient) :
  last_data (after (_on_audio a self)) = last_frame a.
Proof. destruct (on_audio_after a self) as [e ->]. reflexivity. Qed.

Lemma on_audio_listeners (a : bytes) (self : HowlClient) :
  listeners (after (_on_audio a self)) = listeners self.
Proof. destruct (on_audio_after a self) as [e ->]. reflexivity. Qed.

(** A run emits exactly when the push fills the buffer, and the window is
    the buffer with the new frame, joined. *)
Lemma on_audio_emitted (a : bytes) (self : HowlClient) :
  emitted (calls (_on_audio a self)) =
  if fills a self then Some (bytes_join (_audio_buf self ++ [a])) else None.
Proof.
  unfold _on_audio, fills. rewrite !calls_bind.
  cbn [result calls after modify get fst snd _audio_buf set_audio_buf
       set_last_data _audio_buf_len app].
  destruct (Z.of_nat (List.length (_audio_buf self ++ [a])) =? _audio_buf_len self);
    cbn [negb].
  - rewrite calls_bind. cbn [result calls after modify fst snd app].
    rewrite calls_bind. unfold _normalize_audio at 1.
    rewrite calls_bind. cbn [result calls after get called fst snd app emitted].
    reflexivity.
  - reflexivity.
Qed.

(** *** What a run returns *)

Lemma returns_only_ret {A} (v : A) : returns_only v (ret v).
Proof. intros self. reflexivity. Qed.

Lemma returns_only_bind {A B} (v : B) (m : M A) (k : A -> M B) :
  (forall a, returns_only v (k a)) -> returns_only v (bind m k).
Proof.
  intros Hk self. rewrite result_bind.
  destruct (result (m self)) as [a | e]; [ apply Hk | exact I ].
Qed.

Lemma returns_only_if {A} (v : A) (b : bool) (m1 m2 : M A) :
  returns_only v m1 -> returns_only v m2 -> returns_only v (if b then m1 else m2).
Proof. destruct b; auto. Qed.

Lemma on_audio_returns_only (a : bytes) :
  returns_only (a, paContinue) (_on_audio a).
Proof.
  unfold _on_audio.
  repeat first
    [ apply returns_only_ret
    | apply returns_only_bind; intros ?
    | apply returns_only_if ].
Qed.

(** ** Sequences of pushes *)

Lemma pushed_snoc (frames : list bytes) (a : bytes) (self : HowlClient) :
  pushed (frames ++ [a]) self = after (_on_audio a (pushed frames self)).
Proof. unfold pushed. rewrite fold_left_app. reflexivity. Qed.

Lemma pushed_buf_len (frames : list bytes) (self : HowlClient) :
  _audio_buf_len (pushed frames self) = _audio_buf_len self.
Proof.
  induction frames as [ | a frames IH] using rev_ind; [ reflexivity | ].
  rewrite pushed_snoc, on_audio_buf_len. exact IH.
Qed.

Lemma pushed_listeners (frames : list bytes) (self : HowlClient) :
  listeners (pushed frames self) = listeners self.
Proof.
  induction frames as [ | a frames IH] using rev_ind; [ reflexivity | ].
  rewrite pushed_snoc, on_audio_listeners. exact IH.
Qed.

Lemma registered_snoc (ls : list Listener) (l : Listener) (self : HowlClient) :
  registered (ls ++ [l]) self = after (add_listener l (registered ls self)).
Proof. unfold registered. rewrite fold_left_app. reflexivity. Qed.

Lemma registered_attrs (ls : list Listener) (self : HowlClient) :
  _audio_buf (registered ls self) = _audio_buf self /\
  _audio_buf_len (registered ls self) = _audio_buf_len self /\
  listeners (registered ls self) = listeners self ++ ls.
Proof.
  induction ls as [ | l ls IH] using rev_ind.
  - cbn. rewrite app_nil_r. auto.
  - rewrite registered_snoc. destruct IH as (Hb & Hl & Hls).
    cbn. rewrite Hls, app_assoc. auto.
Qed.

Lemma buf_len_after_le (k : nat) : (buf_len_after k <= k)%nat.
Proof.
  unfold buf_len_after.
  destruct (Nat.ltb_spec k 16); [ lia | destruct (Nat.even k); lia ].
Qed.

Lemma buf_len_after_succ (k : nat) :
  buf_len_after (S k) =
  if (buf_len_after k + 1 =? 16)%nat then 14%nat else S (buf_len_after k).
Proof.
  unfold buf_len_after. rewrite Nat.even_succ, <- Nat.negb_even.
  destruct (Nat.ltb_spec k 16) as [Hk | Hk];
    destruct (Nat.ltb_spec (S k) 16) as [Hk' | Hk']; try lia.
  - destruct (Nat.eqb_spec (k + 1) 16); [ lia | reflexivity ].
  - assert (k = 15%nat) by lia. subst k. reflexivity.
  - destruct (Nat.even k); reflexivity.
Qed.

Lemma skipn_snoc {A} (n : nat) (l : list A) (a : A) :
  (n <= List.length l)%nat -> skipn n (l ++ [a]) = skipn n l ++ [a].
Proof.
  intros H. rewrite skipn_app.
  replace (n - List.length l)%nat with 0%nat by lia. reflexivity.
Qed.

(** The buffer of a new client after any pushes: the most recent frames,
    as many as [buf_len_after] says. *)
Lemma pushed_buf (frames : list bytes) (self : HowlClient) :
  _audio_buf self = [] -> _audio_buf_len self = 16 ->
  _audio_buf (pushed frames self) =
  skipn (List.length frames - buf_len_after (List.length frames)) frames.
Proof.
  intros Hb Hn.
  induction frames as [ | a frames IH] using rev_ind; [ exact Hb | ].
  rewrite pushed_snoc, on_audio_buf. unfold fills.
  rewrite pushed_buf_len, Hn, IH.
  pose proof (buf_len_after_le (List.length frames)) as Hle.
  rewrite !length_app, length_skipn. cbn [List.length].
  replace (List.length frames + 1)%nat with (S (List.length frames)) by lia.
  rewrite buf_len_after_succ.
  replace (List.length frames - (List.length frames - buf_len_after (List.length frames)))%nat
    with (buf_len_after (List.length frames)) by lia.
  destruct (Nat.eqb_spec (buf_len_after (List.length frames) + 1) 16) as [E | E].
  - destruct (Z.eqb_spec (Z.of_nat (buf_len_after (List.length frames) + 1)) 16);
      [ | lia ].
    rewrite <- skipn_snoc by lia. rewrite skipn_skipn. f_equal. lia.
  - destruct (Z.eqb_spec (Z.of_nat (buf_len_after (List.length frames) + 1)) 16);
      [ lia | ].
    rewrite <- skipn_snoc by lia. f_equal.
Qed.

Lemma pushed_buf_length (frames : list bytes) (self : HowlClient) :
  _audio_buf self = [] -> _audio_buf_len self = 16 ->
  List.length (_audio_buf (pushed frames self)) = buf_len_after (List.length frames).
Proof.
  intros Hb Hn. rewrite (pushed_buf _ _ Hb Hn), length_skipn.
  pose proof (buf_len_after_le (List.length frames)). lia.
Qed.

Lemma fills_pushed (frames : list bytes) (a : bytes) (self : HowlClient) :
  _audio_buf self = [] -> _audio_buf_len self = 16 ->
  fills a (pushed frames self) = emits_at (S (List.length frames)).
Proof.
  intros Hb Hn. unfold fills, emits_at.
  rewrite pushed_buf_len, Hn, length_app, (pushed_buf_length _ _ Hb Hn).
  cbn [List.length]. unfold buf_len_after.
  rewrite Nat.even_succ, <- Nat.negb_even.
  destruct (Nat.ltb_spec (List.length frames) 16) as [Hk | Hk].
  - destruct (Nat.leb_spec 16 (S (List.length frames))) as [Hk' | Hk'].
    + assert (E : List.length frames = 15%nat) by lia. rewrite E. reflexivity.
    + destruct (Z.eqb_spec (Z.of_nat (List.length frames + 1)) 16); [ lia | reflexivity ].
  - destruct (Nat.leb_spec 16 (S (List.length frames))) as [Hk' | Hk']; [ | lia ].
    destruct (Nat.even (List.length frames)); reflexivity.
Qed.

Lemma emits_on_audio (a : bytes) (self : HowlClient) :
  emits (_on_audio a self) = fills a self.
Proof. unfold emits. rewrite on_audio_emitted. destruct (fills a self); reflexivity. Qed.

Lemma feed_emits (frames prefix : list bytes) (self : HowlClient) :
  _audio_buf self = [] -> _audio_buf_len self = 16 ->
  map emits (feed frames (pushed prefix self)) =
  map emits_at (seq (S (List.length prefix)) (List.length frames)).
Proof.
  intros Hb Hn. revert prefix.
  induction frames as [ | f rest IH]; intros prefix; [ reflexivity | ].
  cbn [feed map List.length seq].
  rewrite emits_on_audio, (fills_pushed _ _ _ Hb Hn), <- pushed_snoc, IH.
  rewrite length_app, Nat.add_1_r. reflexivity.
Qed.

(** ** Frames inside a window

    Where the bytes of each frame sit in the concatenation of a list of
    frames: frame [i] starts after the bytes of the frames before it. *)

Lemma concat_frame_at (fs : list bytes) (i : nat) (f : bytes) :
  nth_error fs i = Some f ->
  firstn (List.length f)
         (skipn (list_sum (map (@List.length byte) (firstn i fs)))
                (List.concat fs)) = f.
Proof using.
  revert i. induction fs as [ | g rest IH]; intros i H.
  - destruct i; discriminate H.
  - destruct i as [ | j]; cbn [nth_error] in H.
    + injection H as ->.
      change (list_sum (map (@List.length byte) (firstn 0 (f :: rest))))
        with 0%nat.
      cbn [skipn List.concat].
      rewrite firstn_app, firstn_all, Nat.sub_diag. cbn [firstn].
      apply app_nil_r.
    + change (list_sum (map (@List.length byte) (firstn (S j) (g :: rest))))
        with (List.length g + list_sum (map (@List.length byte) (firstn j rest)))%nat.
      cbn [List.concat].
      rewrite skipn_app, skipn_all2 by lia. cbn [app].
      replace (List.length g + list_sum (map (@List.length byte) (firstn j rest))
               - List.length g)%nat
        with (list_sum (map (@List.length byte) (firstn j rest))) by lia.
      apply IH. exact H.
Qed.

Lemma concat_drop_two (f1 f2 : bytes) (rest : list bytes) :
  skipn (List.length f1 + List.length f2) (f1 ++ f2 ++ List.concat rest)
  = List.concat rest.
Proof using.
  rewrite app_assoc, skipn_app.
  rewrite skipn_all2 by (rewrite length_app; lia).
  rewrite length_app, Nat.sub_diag. reflexivity.
Qed.

(** ** The overlap buffer *)

Section NewClient.

Variables (engine0 : option Engine) (context : option InferenceContext)
          (device0 : Device) (chunk_size0 : Z) (audio : PyAudio)
          (ls : list Listener).

Local Abbreviation client :=
  (fresh_client engine0 context device0 chunk_size0 audio ls).

Lemma client_buf : _audio_buf client = [].
Proof. unfold fresh_client. apply registered_attrs. Qed.

Lemma client_buf_len : _audio_buf_len client = 16.
Proof. unfold fresh_client. apply registered_attrs. Qed.

(** C1 (amended): whatever frames are pushed into a new client, the k-th
    push (k = 1, 2, ...) emits a window exactly when k >= 16 and k is
    even: no window during the first 15 pushes, a window at the 16th
    push and then at every second push (18th, 20th, ...), none at the
    pushes in between. *)
Theorem emission_every_second_push (frames : list bytes) :
  map emits (feed frames client) = map emits_at (seq 1 (List.length frames)).
Proof. exact (feed_emits frames [] client client_buf client_buf_len). Qed.

(** C2 (amended): after k pushes into a new client the buffer holds k
    frames while k < 16, and from the 16th push on it holds 14 = N-2
    frames after an even-numbered (emitting) push and 15 = N-1 frames
    after an odd-numbered push. *)
Theorem buffer_length_after_pushes (frames : list bytes) :
  List.length (_audio_buf (pushed frames client)) =
  buf_len_after (List.length frames).
Proof. exact (pushed_buf_length frames client client_buf client_buf_len). Qed.

(** C5: for every push history, a window emitted by a push is the
    concatenation, oldest first, of the frames the buffer holds at that
    moment (its content before the push followed by the new frame): every
    held frame sits in the window, byte for byte, right after the bytes of
    the frames held before it, and the window has no other bytes.  The
    frames held are exactly the 16 most recently pushed ones, so a frame
    retired earlier is in no later window. *)
Theorem window_is_current_buffer (frames : list bytes) (a w : bytes) :
  let held := _audio_buf (pushed frames client) ++ [a] in
  emitted (calls (_on_audio a (pushed frames client))) = Some w ->
  w = List.concat held /\
  (forall (i : nat) (f : bytes),
     nth_error held i = Some f ->
     firstn (List.length f)
            (skipn (list_sum (map (@List.length byte) (firstn i held))) w) = f) /\
  List.length w = list_sum (map (@List.length byte) held) /\
  held = skipn (List.length (frames ++ [a]) - 16) (frames ++ [a]) /\
  List.length held = 16%nat.
Proof.
  intros held. rewrite on_audio_emitted.
  destruct (fills a (pushed frames client)) eqn:F; [ | discriminate ].
  intros [= <-]. fold held. unfold bytes_join.
  split; [ reflexivity | ].
  split; [ intros i f Hf; apply concat_frame_at; exact Hf | ].
  split; [ apply length_concat | ].
  rewrite (fills_pushed _ _ _ client_buf client_buf_len) in F.
  unfold emits_at in F. apply andb_prop in F. destruct F as [F1 F2].
  apply Nat.leb_le in F1.
  assert (L : buf_len_after (List.length frames) = 15%nat).
  { unfold buf_len_after. rewrite Nat.even_succ, <- Nat.negb_even in F2.
    destruct (Nat.ltb_spec (List.length frames) 16); [ lia | ].
    destruct (Nat.even (List.length frames)); [ discriminate | reflexivity ]. }
  unfold held.
  rewrite (pushed_buf _ _ client_buf client_buf_len), L.
  rewrite !length_app, length_skipn. cbn [List.length].
  split; [ | lia ].
  rewrite <- skipn_snoc by lia. f_equal. lia.
Qed.

(** C4: when a push emits a window, the two oldest frames of that window
    are evicted and nothing else; the next push emits nothing and the one
    after it emits the next window, which is the previous window without
    the bytes of its first two frames, followed by the bytes of the two
    newly arrived frames.  So two consecutive windows of 16 frames share
    14 frames. *)
Theorem consecutive_windows_share_14 (frames : list bytes) (a b c w1 : bytes) :
  let self := pushed frames client in
  let r1 := _on_audio a self in
  let r2 := _on_audio b (after r1) in
  let r3 := _on_audio c (after r2) in
  let held := _audio_buf self ++ [a] in
  emitted (calls r1) = Some w1 ->
  w1 = List.concat held /\
  List.length held = 16%nat /\
  _audio_buf (after r1) = skipn 2 held /\
  emitted (calls r2) = None /\
  emitted (calls r3) = Some (List.concat (skipn 2 held ++ [b; c])) /\
  firstn 14 (skipn 2 held ++ [b; c]) = skipn 2 held /\
  List.length (skipn 2 held ++ [b; c]) = 16%nat /\
  exists (f1 f2 : bytes) (rest : list bytes),
    held = f1 :: f2 :: rest /\
    List.length rest = 14%nat /\
    w1 = f1 ++ f2 ++ List.concat rest /\
    emitted (calls r3) =
      Some (skipn (List.length f1 + List.length f2) w1 ++ b ++ c).
Proof.
  intros self r1 r2 r3 held. subst r3 r2 r1.
  assert (Hn : _audio_buf_len self = 16)
    by (unfold self; rewrite pushed_buf_len; apply client_buf_len).
  rewrite !on_audio_emitted.
  destruct (fills a self) eqn:F; [ | discriminate ].
  intros [= <-].
  assert (Hh : List.length held = 16%nat).
  { unfold fills in F. rewrite Hn in F. apply Z.eqb_eq in F. fold held in F. lia. }
  assert (H1 : _audio_buf (after (_on_audio a self)) = skipn 2 held)
    by (rewrite on_audio_buf, F; reflexivity).
  assert (Hs : List.length (skipn 2 held) = 14%nat)
    by (rewrite length_skipn; lia).
  assert (F2 : fills b (after (_on_audio a self)) = false).
  { unfold fills. rewrite on_audio_buf_len, Hn, H1, length_app, Hs. reflexivity. }
  assert (H2 : _audio_buf (after (_on_audio b (after (_on_audio a self))))
               = skipn 2 held ++ [b])
    by (rewrite on_audio_buf, F2, H1; reflexivity).
  assert (F3 : fills c (after (_on_audio b (after (_on_audio a self)))) = true).
  { unfold fills. rewrite !on_audio_buf_len, Hn, H2, !length_app, Hs. reflexivity. }
  rewrite F2, F3, H2, <- app_assoc. cbn [app]. fold held. unfold bytes_join.
  split; [ reflexivity | ]. split; [ exact Hh | ]. split; [ exact H1 | ].
  split; [ reflexivity | ]. split; [ reflexivity | ].
  split; [ rewrite firstn_app, Hs, firstn_all2 by lia; cbn; apply app_nil_r | ].
  split; [ rewrite length_app, Hs; reflexivity | ].
  destruct held as [ | f1 [ | f2 rest]] eqn:E; try discriminate Hh.
  exists f1, f2, rest.
  split; [ reflexivity | ].
  split; [ cbn [List.length] in Hh; lia | ].
  split; [ reflexivity | ].
  cbn [skipn List.concat]. rewrite concat_drop_two, concat_app.
  cbn [List.concat]. rewrite app_nil_r. reflexivity.
Qed.

End NewClient.

(** ** What the callback returns *)

(** C10: whenever a run of the callback returns (rather than raising), it
    returns the pair of the frame it was given and [paContinue], whatever
    the fill level of the buffer and whatever the engine answered. *)
Theorem on_audio_returns_continue (self : HowlClient) (in_data : bytes)
    (v : bytes * PaFlag) :
  result (_on_audio in_data self) = Returns v -> v = (in_data, paContinue).
Proof.
  intros H. pose proof (on_audio_returns_only in_data self) as R.
  rewrite H in R. exact R.
Qed.

(** ** Failure of the engine *)

(** C9: in a run that emits a window, the buffer has lost its two oldest
    frames and [last_data] holds the new frame by the time the engine is
    called: when [infer] raises, the run raises the same exception after
    the calls to the normaliser and to the engine, and the client it leaves
    has the buffer already shortened (14 frames, against 15 before the
    call) and the new [last_data]; nothing is restored. *)
Theorem infer_failure_keeps_retirement (self : HowlClient) (in_data : bytes)
    (eng eng' : Engine) (arr : list spec_float) (e : Exn) :
  let held := _audio_buf self ++ [in_data] in
  let r := _on_audio in_data self in
  _audio_buf_len self = 16 ->
  fills in_data self = true ->
  normalize (_audio_float_size self) (bytes_join held) = Returns arr ->
  engine self = Some eng ->
  engine_infer eng (to_tensor arr (device self)) = (Raises e, eng') ->
  result r = Raises e /\
  calls r = [call_normalize_audio (bytes_join held);
             call_infer (to_tensor arr (device self))] /\
  _audio_buf (after r) = skipn 2 held /\
  last_data (after r) = last_frame in_data /\
  List.length (_audio_buf (after r)) = 14%nat /\
  List.length (_audio_buf self) = 15%nat /\
  _audio_buf (after r) <> _audio_buf self.
Proof.
  intros held r Hn F Hnorm Heng Hinf.
  assert (Hh : List.length held = 16%nat).
  { unfold fills in F. rewrite Hn in F. apply Z.eqb_eq in F. fold held in F. lia. }
  assert (Hb : _audio_buf (after r) = skipn 2 held)
    by (unfold r; rewrite on_audio_buf, F; reflexivity).
  assert (H15 : List.length (_audio_buf self) = 15%nat)
    by (unfold held in Hh; rewrite length_app in Hh; cbn in Hh; lia).
  assert (H14 : List.length (_audio_buf (after r)) = 14%nat)
    by (rewrite Hb, length_skipn; lia).
  unfold fills in F.
  assert (R : result r = Raises e /\
              calls r = [call_normalize_audio (bytes_join held);
                         call_infer (to_tensor arr (device self))]).
  { unfold r, _on_audio, bind, modify, get.
    cbn [_audio_buf set_audio_buf set_last_data _audio_buf_len].
    rewrite F. cbn [negb].
    unfold _normalize_audio, bind, get, called.
    cbn [_audio_float_size set_audio_buf set_last_data].
    fold held. rewrite Hnorm.
    unfold self_engine_infer. cbn [engine set_audio_buf set_last_data device].
    rewrite Heng, Hinf. split; reflexivity. }
  destruct R as [R1 R2].
  repeat split; auto.
  - unfold r. apply on_audio_last_data.
  - intros E. rewrite E in H14. lia.
Qed.

(** ** Notification of the listeners *)

Lemma map_M_vocab_run (seq : list Z) (s : HowlClient) :
  exists o, map_M self_ctx_vocab seq s = (o, [], s).
Proof.
  induction seq as [ | x rest [o IH]]; [ eexists; reflexivity | ].
  cbn [map_M]. unfold bind at 1. unfold self_ctx_vocab at 1.
  destruct (ctx s) as [c | ]; [ destruct (vocab c x) as [w | ] | ];
    try (eexists; reflexivity).
  unfold bind. rewrite IH.
  destruct o; eexists; reflexivity.
Qed.

Lemma for_each_calls {A} (xs : list A) (body : A -> M unit) (s : HowlClient)
    (o : A -> outcome unit) (ev : A -> Event) :
  (forall x, body x s = (o x, [ev x], s)) ->
  returned (result (for_each xs body s)) = true ->
  calls (for_each xs body s) = map ev xs.
Proof.
  intros Hb. induction xs as [ | x rest IH]; [ reflexivity | ].
  cbn [for_each map]. rewrite result_bind, calls_bind, Hb.
  cbn [result calls after fst snd].
  destruct (o x) as [[] | e]; [ | discriminate ].
  intros H. cbn [app]. f_equal. apply IH. exact H.
Qed.

Lemma lis_calls_map (ls : list Listener) (arg : list Z) :
  lis_calls (map (fun lis => call_lis lis arg) ls) = map (fun lis => (lis, arg)) ls.
Proof. induction ls as [ | l rest IH]; cbn; [ | rewrite IH ]; reflexivity. Qed.

(** X21: in a run that emits a window and returns, when [infer] answered
    true every registered listener was called exactly once, in
    registration order, each with the engine's [sequence]; when [infer]
    answered false no listener was called. *)
Theorem detection_notifies_listeners (self : HowlClient) (in_data : bytes)
    (eng eng' : Engine) (arr : list spec_float) (detected : bool) :
  fills in_data self = true ->
  normalize (_audio_float_size self) (bytes_join (_audio_buf self ++ [in_data]))
    = Returns arr ->
  engine self = Some eng ->
  engine_infer eng (to_tensor arr (device self)) = (Returns detected, eng') ->
  returned (result (_on_audio in_data self)) = true ->
  lis_calls (calls (_on_audio in_data self)) =
  if detected
  then map (fun lis => (lis, engine_sequence eng')) (listeners self)
  else [].
Proof.
  intros F Hnorm Heng Hinf. unfold fills in F.
  enough (R : forall o t s, _on_audio in_data self = (o, t, s) ->
              returned o = true ->
              lis_calls t =
              if detected
              then map (fun lis => (lis, engine_sequence eng')) (listeners self)
              else []).
  { destruct (_on_audio in_data self) as [[o t] s] eqn:E. exact (R o t s eq_refl). }
  intros o t s.
  unfold _on_audio, bind, modify, get.
  cbn [_audio_buf set_audio_buf set_last_data _audio_buf_len].
  rewrite F. cbn [negb].
  unfold _normalize_audio, bind, get, called.
  cbn [_audio_float_size set_audio_buf set_last_data].
  rewrite Hnorm.
  unfold self_engine_infer. cbn [engine set_audio_buf set_last_data device].
  rewrite Heng, Hinf.
  destruct detected; [ | intros [= <- <- <-] _; reflexivity ].
  unfold self_engine_sequence at 1.
  cbn [engine set_engine].
  match goal with
  | |- context [map_M self_ctx_vocab ?q ?s] =>
      destruct (map_M_vocab_run q s) as [ow Ho]; rewrite Ho
  end.
  destruct ow as [words | e]; [ | intros [= <- <- <-]; discriminate ].
  destruct (logging_info _) as [[] | e]; [ | intros [= <- <- <-]; discriminate ].
  unfold ret. cbn [listeners set_engine set_audio_buf set_last_data].
  match goal with
  | |- context [for_each ?xs ?body ?s] =>
      pose proof (for_each_calls xs body s
                    (fun lis => call_listener lis (engine_sequence eng'))
                    (fun lis => call_lis lis (engine_sequence eng'))) as FE;
      destruct (for_each xs body s) as [[o3 t3] s3]
  end.
  cbn [result calls fst snd app] in FE.
  destruct o3 as [[] | e]; intros [= <- <- <-]; [ | discriminate ].
  intros _. cbn [lis_calls app].
  rewrite FE; [ rewrite app_nil_r; apply lis_calls_map | | reflexivity ].
  intros lis. unfold bind, self_engine_sequence, called. reflexivity.
Qed.

Lemma map_M_vocab_returns (seq : list Z) (s : HowlClient) (c : InferenceContext) :
  ctx s = Some c ->
  (forall x, In x seq -> vocab c x <> None) ->
  exists words, map_M self_ctx_vocab seq s = (Returns words, [], s).
Proof.
  intros Hc. induction seq as [ | x rest IH]; intros Hall.
  - eexists; reflexivity.
  - destruct IH as [ws IH]; [ intros y Hy; apply Hall; right; exact Hy | ].
    cbn [map_M]. unfold bind at 1. unfold self_ctx_vocab at 1. rewrite Hc.
    destruct (vocab c x) as [w | ] eqn:V;
      [ | exfalso; apply (Hall x); [ left; reflexivity | exact V ] ].
    unfold bind. rewrite IH. eexists; reflexivity.
Qed.

Lemma for_each_returns {A} (xs : list A) (body : A -> M unit) (s : HowlClient)
    (o : A -> outcome unit) (ev : A -> Event) :
  (forall x, body x s = (o x, [ev x], s)) ->
  (forall x, In x xs -> o x = Returns tt) ->
  result (for_each xs body s) = Returns tt.
Proof.
  intros Hb. induction xs as [ | x rest IH]; intros Hall; [ reflexivity | ].
  cbn [for_each]. rewrite result_bind, Hb. cbn [result after fst snd].
  rewrite (Hall x) by (left; reflexivity).
  apply IH. intros y Hy. apply Hall. right. exact Hy.
Qed.

(** A run that detects returns as soon as the vocabulary knows every token,
    the log call returns and every listener returns. *)
Lemma on_audio_returns (self : HowlClient) (in_data : bytes)
    (eng eng' : Engine) (arr : list spec_float) (c : InferenceContext) :
  fills in_data self = true ->
  normalize (_audio_float_size self) (bytes_join (_audio_buf self ++ [in_data]))
    = Returns arr ->
  engine self = Some eng ->
  engine_infer eng (to_tensor arr (device self)) = (Returns true, eng') ->
  ctx self = Some c ->
  (forall x, In x (engine_sequence eng') -> vocab c x <> None) ->
  (forall msg, logging_info msg = Returns tt) ->
  (forall lis, In lis (listeners self) ->
               call_listener lis (engine_sequence eng') = Returns tt) ->
  result (_on_audio in_data self) = Returns (in_data, paContinue).
Proof.
  intros F Hnorm Heng Hinf Hc Hvocab Hlog Hlis. unfold fills in F.
  unfold _on_audio, bind, modify, get.
  cbn [_audio_buf set_audio_buf set_last_data _audio_buf_len].
  rewrite F. cbn [negb].
  unfold _normalize_audio, bind, get, called.
  cbn [_audio_float_size set_audio_buf set_last_data].
  rewrite Hnorm.
  unfold self_engine_infer. cbn [engine set_audio_buf set_last_data device].
  rewrite Heng, Hinf.
  unfold self_engine_sequence at 1.
  cbn [engine set_engine].
  match goal with
  | |- context [map_M self_ctx_vocab ?q ?s] =>
      destruct (map_M_vocab_returns q s c Hc Hvocab) as [words Ho]; rewrite Ho
  end.
  rewrite Hlog.
  unfold ret. cbn [listeners set_engine set_audio_buf set_last_data].
  match goal with
  | |- context [for_each ?xs ?body ?s] =>
      pose proof (for_each_returns xs body s
                    (fun lis => call_listener lis (engine_sequence eng'))
                    (fun lis => call_lis lis (engine_sequence eng'))) as FE;
      destruct (for_each xs body s) as [[o3 t3] s3]
  end.
  cbn [result fst snd] in FE. rewrite FE; [ reflexivity | | exact Hlis ].
  intros lis. unfold bind, self_engine_sequence, called. reflexivity.
Qed.

(** ** Starting the stream *)

Lemma first_pulse_spec (devs : list DeviceInfo) :
  match first_pulse devs with
  | Some i =>
      (exists d, nth_error devs i = Some d /\ name d = "pulse"%string) /\
      (forall j d, (j < i)%nat -> nth_error devs j = Some d ->
                   name d <> "pulse"%string)
  | None => forall d, In d devs -> name d <> "pulse"%string
  end.
Proof.
  induction devs as [ | d rest IH]; cbn [first_pulse].
  - intros d [].
  - destruct (String.eqb_spec (name d) "pulse") as [E | E].
    + split; [ exists d; auto | intros j d' Hj; lia ].
    + destruct (first_pulse rest) as [i | ]; cbn [option_map].
      * destruct IH as [IH1 IH2]. split; [ exact IH1 | ].
        intros [ | j] d' Hj Hd; cbn in Hd.
        -- injection Hd as <-. exact E.
        -- apply (IH2 j d'); [ lia | exact Hd ].
      * intros d' [<- | Hin]; [ exact E | apply IH; exact Hin ].
Qed.

(** The loop of [start] over the devices not yet inspected. *)
Lemma choose_device_run (rest pre : list DeviceInfo) (chosen : nat)
    (self : HowlClient) :
  pa_devices (_audio self) = pre ++ rest ->
  choose_device chosen (seq (List.length pre) (List.length rest)) self =
  (Returns (match first_pulse rest with
            | Some i => (List.length pre + i)%nat
            | None => chosen
            end),
   map call_get_device_info_by_index
       (seq (List.length pre)
            (match first_pulse rest with
             | Some i => S i
             | None => List.length rest
             end)),
   self).
Proof.
  revert pre. induction rest as [ | d rest IH]; intros pre Hd; [ reflexivity | ].
  cbn [List.length seq choose_device first_pulse].
  unfold bind at 1, get. unfold bind at 1, called.
  rewrite Hd, nth_error_app2, Nat.sub_diag by lia. cbn [nth_error].
  destruct (String.eqb (name d) "pulse").
  - unfold ret. cbn [seq map app]. rewrite Nat.add_0_r. reflexivity.
  - specialize (IH (pre ++ [d])).
    rewrite length_app, Nat.add_1_r in IH. rewrite IH.
    + destruct (first_pulse rest) as [i | ]; cbn [option_map seq map app];
        [ rewrite Nat.add_succ_r | ]; reflexivity.
    + rewrite Hd, <- app_assoc. reflexivity.
Qed.

Lemma start_run (self : HowlClient) (e : Engine) (c : InferenceContext) :
  engine self = Some e -> ctx self = Some c ->
  let devs := pa_devices (_audio self) in
  let cfg := {| format := paInt16;
                channels := 1;
                rate := 16000;
                input := true;
                input_device_index :=
                  match first_pulse devs with Some i => i | None => 0%nat end;
                frames_per_buffer := chunk_size self;
                stream_callback := self_on_audio |} in
  start self =
  match pa_open_error (_audio self) cfg with
  | Some err =>
      (Raises err,
       call_get_device_count ::
       map call_get_device_info_by_index
           (seq 0 (match first_pulse devs with
                   | Some i => S i
                   | None => List.length devs
                   end)) ++ [call_open cfg],
       self)
  | None =>
      (Returns tt,
       call_get_device_count ::
       map call_get_device_info_by_index
           (seq 0 (match first_pulse devs with
                   | Some i => S i
                   | None => List.length devs
                   end)) ++ [call_open cfg; call_start_stream],
       set_stream (Some {| opened_with := cfg; started := true |}) self)
  end.
Proof.
  intros He Hc devs cfg. subst cfg devs.
  unfold start, bind at 1, get. rewrite He, Hc.
  unfold bind at 1, called at 1. unfold bind at 1.
  pose proof (choose_device_run (pa_devices (_audio self)) [] 0 self eq_refl) as CD.
  cbn [List.length Nat.add] in CD. rewrite CD. clear CD.
  unfold bind, called, modify.
  destruct (pa_open_error (_audio self) _) as [err | ]; cbn [app].
  - reflexivity.
  - destruct self; reflexivity.
Qed.

(** C7: [start] raises (an [AttributeError], the error of a client that is
    not configured) as soon as the engine or the context is absent, and then
    makes no call at all, so no device is enumerated and no stream opened,
    and leaves the client as it was; with both present it goes on to open
    the stream. *)
Theorem start_checks_configuration (self : HowlClient) :
  match engine self, ctx self with
  | Some _, Some _ =>
      exists cfg rest,
        calls (start self) = call_get_device_count :: rest /\
        In (call_open cfg) rest
  | _, _ =>
      (exists msg, result (start self) = Raises (AttributeError msg)) /\
      calls (start self) = [] /\
      after (start self) = self
  end.
Proof.
  destruct (engine self) as [e | ] eqn:He; [ destruct (ctx self) as [c | ] eqn:Hc | ].
  - pose proof (start_run self e c He Hc) as R. cbv zeta in R.
    destruct (pa_open_error (_audio self) _) as [err | ];
      rewrite R; cbn [calls fst snd]; do 2 eexists;
      (split; [ reflexivity | ]); apply in_or_app; right; left; reflexivity.
  - unfold start, bind, get, raise. rewrite He, Hc. cbn.
    split; [ eexists; reflexivity | split; reflexivity ].
  - unfold start, bind, get, raise. rewrite He. cbn.
    split; [ eexists; reflexivity | split; reflexivity ].
Qed.

(** C8: a configured [start] opens the stream exactly once, for input, with
    16-bit signed samples, one channel, 16000 Hz and [chunk_size] frames per
    buffer, on the device whose index is that of the first enumerated device
    named pulse, or on device 0 when no enumerated device has that name. *)
Theorem start_selects_pulse_or_zero (self : HowlClient) (e : Engine)
    (c : InferenceContext) :
  engine self = Some e -> ctx self = Some c ->
  exists chosen_idx,
    let devs := pa_devices (_audio self) in
    let cfg := {| format := paInt16;
                  channels := 1;
                  rate := 16000;
                  input := true;
                  input_device_index := chosen_idx;
                  frames_per_buffer := chunk_size self;
                  stream_callback := self_on_audio |} in
    ((exists d, nth_error devs chosen_idx = Some d /\ name d = "pulse"%string) /\
     (forall j d, (j < chosen_idx)%nat -> nth_error devs j = Some d ->
                  name d <> "pulse"%string)
     \/
     chosen_idx = 0%nat /\ (forall d, In d devs -> name d <> "pulse"%string)) /\
    In (call_open cfg) (calls (start self)) /\
    (forall cfg', In (call_open cfg') (calls (start self)) -> cfg' = cfg).
Proof.
  intros He Hc.
  pose proof (start_run self e c He Hc) as R. cbv zeta in R.
  pose proof (first_pulse_spec (pa_devices (_audio self))) as P.
  exists (match first_pulse (pa_devices (_audio self)) with
          | Some i => i
          | None => 0%nat
          end).
  cbv zeta. split; [ | split ].
  - destruct (first_pulse (pa_devices (_audio self))) as [i | ];
      [ left; exact P | right; split; [ reflexivity | exact P ] ].
  - destruct (pa_open_error (_audio self) _) as [err | ];
      rewrite R; cbn [calls fst snd]; right; apply in_or_app; right; left;
      reflexivity.
  - intros cfg' Hin.
    assert (Hcases : In (call_open cfg')
              (map call_get_device_info_by_index
                 (seq 0 (match first_pulse (pa_devices (_audio self)) with
                         | Some i => S i
                         | None => List.length (pa_devices (_audio self))
                         end))) \/
            call_open cfg' =
            call_open {| format := paInt16;
                         channels := 1;
                         rate := 16000;
                         input := true;
                         input_device_index :=
                           match first_pulse (pa_devices (_audio self)) with
                           | Some i => i
                           | None => 0%nat
                           end;
                         frames_per_buffer := chunk_size self;
                         stream_callback := self_on_audio |}).
    { destruct (pa_open_error (_audio self) _) as [err | ];
        rewrite R in Hin; cbn [calls fst snd] in Hin;
        (destruct Hin as [Hin | Hin]; [ discriminate Hin | ]);
        apply in_app_or in Hin;
        (destruct Hin as [Hin | Hin]; [ left; exact Hin | right ]).
      - destruct Hin as [Hin | []]. symmetry. exact Hin.
      - destruct Hin as [Hin | [Hin | []]];
          [ symmetry; exact Hin | discriminate Hin ]. }
    destruct Hcases as [Hin' | Heq].
    + apply in_map_iff in Hin'. destruct Hin' as (i & Hi & _). discriminate.
    + injection Heq as ->. reflexivity.
Qed.

(** ** The normaliser *)


Lemma normalize_audio_run (audio_data : bytes) (self : HowlClient) :
  _normalize_audio audio_data self =
  (normalize (_audio_float_size self) audio_data,
   [call_normalize_audio audio_data], self).
Proof. reflexivity. Qed.


(** * Further properties of the client *)

(** ** The normaliser: sizes *)

Lemma frombuffer_length_bounded (n : nat) (b : bytes) :
  (List.length b <= n)%nat ->
  match Numpy.frombuffer_int16 b with
  | Returns xs => List.length b = (2 * List.length xs)%nat
  | Raises e =>
      Nat.odd (List.length b) = true /\
      e = ValueError "buffer size must be a multiple of element size"
  end.
Proof.
  revert b. induction n as [ | n IH]; intros b Hb.
  - destruct b; [ reflexivity | cbn in Hb; lia ].
  - destruct b as [ | lo [ | hi rest]]; [ reflexivity | split; reflexivity | ].
    cbn [Numpy.frombuffer_int16].
    assert (Hr : (List.length rest <= n)%nat) by (cbn in Hb; lia).
    specialize (IH rest Hr).
    destruct (Numpy.frombuffer_int16 rest) as [xs | e].
    + cbn [List.length]. lia.
    + destruct IH as [Ho He]. split; [ | exact He ].
      cbn [List.length]. rewrite !Nat.odd_succ, <- Nat.negb_odd, Nat.odd_succ.
      rewrite <- Nat.negb_odd, Ho. reflexivity.
Qed.

Lemma frombuffer_length (b : bytes) :
  match Numpy.frombuffer_int16 b with
  | Returns xs => List.length b = (2 * List.length xs)%nat
  | Raises e =>
      Nat.odd (List.length b) = true /\
      e = ValueError "buffer size must be a multiple of element size"
  end.
Proof. exact (frombuffer_length_bounded (List.length b) b (Nat.le_refl _)). Qed.

(** X1: [_normalize_audio] returns exactly when the number of bytes is
    even, and then gives one sample per two bytes; on an odd number of bytes
    it raises the [ValueError] of [frombuffer], whatever the bytes are. *)
Theorem normalize_audio_length (self : HowlClient) (audio_data : bytes) :
  match result (_normalize_audio audio_data self) with
  | Returns arr =>
      Nat.even (List.length audio_data) = true /\
      List.length audio_data = (2 * List.length arr)%nat
  | Raises e =>
      Nat.odd (List.length audio_data) = true /\
      e = ValueError "buffer size must be a multiple of element size"
  end.
Proof.
  rewrite normalize_audio_run. cbn [result fst]. unfold normalize.
  pose proof (frombuffer_length audio_data) as H.
  destruct (Numpy.frombuffer_int16 audio_data) as [xs | e]; [ | exact H ].
  unfold Numpy.divide, Numpy.astype_float. rewrite !length_map.
  split; [ | exact H ].
  rewrite H, Nat.even_mul. reflexivity.
Qed.

(** ** The runs of the callback, case by case *)

Lemma bind_modify {B} (f : HowlClient -> HowlClient) (k : unit -> M B)
    (self : HowlClient) :
  bind (modify f) k self = k tt (f self).
Proof. unfold bind, modify. destruct (k tt (f self)) as [[o t] s]. reflexivity. Qed.

Lemma bind_get {B} (k : HowlClient -> M B) (self : HowlClient) :
  bind get k self = k self self.
Proof. unfold bind, get. destruct (k self self) as [[o t] s]. reflexivity. Qed.

Lemma on_audio_priming_run (a : bytes) (self : HowlClient) :
  fills a self = false ->
  _on_audio a self = (Returns (a, paContinue), [], appended a self).
Proof.
  intros F. unfold fills in F. unfold _on_audio.
  rewrite !bind_modify, bind_get.
  cbn [_audio_buf set_audio_buf set_last_data _audio_buf_len].
  rewrite F. reflexivity.
Qed.

Lemma on_audio_emit_eq (a : bytes) (self : HowlClient) :
  fills a self = true ->
  _on_audio a self =
  (arr <- _normalize_audio (bytes_join (_audio_buf self ++ [a])) ;;
   detected <- self_engine_infer (to_tensor arr (device self)) ;;
   notify detected ;;;
   ret (a, paContinue)) (retired a self).
Proof.
  intros F. unfold fills in F. unfold _on_audio.
  rewrite !bind_modify, bind_get.
  cbn [_audio_buf set_audio_buf set_last_data _audio_buf_len].
  rewrite F. cbn [negb]. rewrite bind_modify. reflexivity.
Qed.

Lemma self_engine_infer_run (inp : Tensor) (s : HowlClient) :
  self_engine_infer inp s =
  match engine s with
  | None => (Raises (none_has_no "infer"), [], s)
  | Some eng =>
      (fst (engine_infer eng inp), [call_infer inp],
       set_engine (Some (snd (engine_infer eng inp))) s)
  end.
Proof.
  unfold self_engine_infer. destruct (engine s) as [eng | ]; [ | reflexivity ].
  destruct (engine_infer eng inp). reflexivity.
Qed.

Lemma notifying_ret {A} (a : A) : notifying (ret a).
Proof. intros self. repeat split. Qed.

Lemma notifying_get : notifying get.
Proof. intros self. repeat split. Qed.

Lemma notifying_bind {A B} (m : M A) (k : A -> M B) :
  notifying m -> (forall a, notifying (k a)) -> notifying (bind m k).
Proof.
  intros Hm Hk self. rewrite after_bind, calls_bind.
  destruct (Hm self) as (H1 & H2 & H3).
  assert (I : forall t1 t2, infer_calls (t1 ++ t2) = infer_calls t1 ++ infer_calls t2).
  { induction t1 as [ | ev t1 IH]; intros t2; [ reflexivity | ].
    destruct ev; cbn; rewrite ?IH; reflexivity. }
  assert (E : forall t1 t2, emitted t1 = None -> emitted (t1 ++ t2) = emitted t2).
  { induction t1 as [ | ev t1 IH]; intros t2; [ reflexivity | ].
    destruct ev; cbn; auto; discriminate. }
  rewrite I, H2, (E _ _ H3).
  destruct (result (m self)) as [a | e].
  - rewrite H1. apply Hk.
  - repeat split; assumption.
Qed.

Lemma notifying_log (msg : string) (o : outcome unit) :
  notifying (called (call_logging_info msg) o).
Proof. intros self. repeat split. Qed.

Lemma notifying_lis (lis : Listener) (arg : list Z) (o : outcome unit) :
  notifying (called (call_lis lis arg) o).
Proof. intros self. repeat split. Qed.

Lemma notifying_self_engine_sequence : notifying self_engine_sequence.
Proof.
  intros self. unfold self_engine_sequence.
  destruct (engine self); repeat split.
Qed.

Lemma notifying_self_ctx_vocab (x : Z) : notifying (self_ctx_vocab x).
Proof.
  intros self. unfold self_ctx_vocab.
  destruct (ctx self) as [c | ]; [ destruct (vocab c x) | ]; repeat split.
Qed.

Lemma notifying_for_each {A} (xs : list A) (body : A -> M unit) :
  (forall x, notifying (body x)) -> notifying (for_each xs body).
Proof.
  intros Hb. induction xs as [ | x rest IH]; cbn [for_each].
  - apply notifying_ret.
  - apply notifying_bind; [ apply Hb | intros _; exact IH ].
Qed.

Lemma notifying_map_M {A B} (f : A -> M B) (xs : list A) :
  (forall x, notifying (f x)) -> notifying (map_M f xs).
Proof.
  intros Hf. induction xs as [ | x rest IH]; cbn [map_M].
  - apply notifying_ret.
  - apply notifying_bind; [ apply Hf | intros y ].
    apply notifying_bind; [ exact IH | intros ys; apply notifying_ret ].
Qed.

Lemma notifying_notify (detected : bool) : notifying (notify detected).
Proof.
  unfold notify. destruct detected; [ | apply notifying_ret ].
  apply notifying_bind; [ apply notifying_self_engine_sequence | intros seq ].
  apply notifying_bind;
    [ apply notifying_map_M; intros x; apply notifying_self_ctx_vocab | intros words ].
  apply notifying_bind; [ apply notifying_log | intros _ ].
  apply notifying_bind.
  - apply notifying_bind; [ apply notifying_get | intros s; apply notifying_ret ].
  - intros ls. apply notifying_for_each. intros lis.
    apply notifying_bind; [ apply notifying_self_engine_sequence | intros arg ].
    apply notifying_lis.
Qed.

(** X2: each run of the callback hands at most one tensor to the engine,
    and exactly one when the push fills the buffer, the window normalises
    and an engine is set; the tensor is then the normalised window on the
    client's device and the engine attribute holds the state [infer] left,
    whether [infer] returned or raised.  In every other run the engine is
    neither called nor changed. *)
Theorem engine_called_once_per_window (self : HowlClient) (in_data : bytes) :
  let r := _on_audio in_data self in
  let window := bytes_join (_audio_buf self ++ [in_data]) in
  match fills in_data self, normalize (_audio_float_size self) window, engine self with
  | true, Returns arr, Some eng =>
      infer_calls (calls r) = [to_tensor arr (device self)] /\
      engine (after r) =
        Some (snd (engine_infer eng (to_tensor arr (device self))))
  | _, _, _ =>
      infer_calls (calls r) = [] /\ engine (after r) = engine self
  end.
Proof.
  cbv zeta.
  destruct (fills in_data self) eqn:F.
  - rewrite (on_audio_emit_eq _ _ F). unfold retired.
    rewrite calls_bind, after_bind, normalize_audio_run.
    cbn [result calls after fst snd _audio_float_size retired set_audio_buf
         set_last_data].
    destruct (normalize (_audio_float_size self) _) as [arr | e];
      [ | cbn [engine set_audio_buf set_last_data];
          destruct (engine self); split; reflexivity ].
    rewrite calls_bind, after_bind, self_engine_infer_run.
    cbn [engine set_audio_buf set_last_data].
    destruct (engine self) as [eng | ] eqn:He; cbn [result calls after fst snd];
      [ | split; [ reflexivity | cbn; exact He ] ].
    destruct (engine_infer eng (to_tensor arr (device self))) as [[detected | e] eng'];
      cbn [result calls after fst snd]; [ | split; reflexivity ].
    rewrite calls_bind, after_bind.
    destruct (notifying_notify detected
                (set_engine (Some eng')
                   (set_audio_buf (skipn 2 (_audio_buf self ++ [in_data]))
                      (set_last_data (last_frame in_data) self))))
      as (N1 & N2 & _).
    assert (I : forall t1 t2, infer_calls (t1 ++ t2) = infer_calls t1 ++ infer_calls t2).
    { induction t1 as [ | ev t1 IH]; intros t2; [ reflexivity | ].
      destruct ev; cbn; rewrite ?IH; reflexivity. }
    cbn [app infer_calls]. rewrite I, N2, N1.
    destruct (result (notify detected _)); cbn; split; reflexivity.
  - rewrite (on_audio_priming_run _ _ F). split; reflexivity.
Qed.

(** ** The buffer away from the steady state *)

(** X3: the test of line 66 is an inequality, so a buffer that already
    holds as many frames as its depth, or more, never emits again: every
    further push returns at once with [paContinue], calls nothing, and the
    buffer grows by the pushed frame. *)
Theorem overfull_buffer_never_emits (self : HowlClient) (frames : list bytes) :
  _audio_buf_len self <= Z.of_nat (List.length (_audio_buf self)) ->
  map emits (feed frames self) = repeat false (List.length frames) /\
  map result (feed frames self) = map (fun f => Returns (f, paContinue)) frames /\
  map calls (feed frames self) = repeat [] (List.length frames) /\
  _audio_buf (pushed frames self) = _audio_buf self ++ frames.
Proof.
  revert self. induction frames as [ | a frames IH]; intros self Hfull.
  - cbn. rewrite app_nil_r. auto.
  - assert (F : fills a self = false).
    { unfold fills. rewrite length_app. cbn [List.length].
      destruct (Z.eqb_spec (Z.of_nat (List.length (_audio_buf self) + 1))
                           (_audio_buf_len self)); [ lia | reflexivity ]. }
    cbn [feed map List.length repeat]. unfold pushed. cbn [fold_left].
    fold (pushed frames (after (_on_audio a self))).
    rewrite (on_audio_priming_run _ _ F). cbn [after snd].
    destruct (IH (appended a self)) as (H1 & H2 & H3 & H4).
    { cbn [appended _audio_buf _audio_buf_len set_audio_buf set_last_data].
      rewrite length_app. cbn [List.length]. lia. }
    rewrite H1, H2, H3, H4.
    cbn [appended _audio_buf set_audio_buf]. rewrite <- app_assoc.
    repeat split; reflexivity.
Qed.

(** X4: a buffer that holds fewer frames than its depth keeps doing so
    after any pushes, whatever the frames and whether the runs return or
    raise: the buffer of a client is bounded. *)
Theorem buffer_stays_below_depth (self : HowlClient) (frames : list bytes) :
  Z.of_nat (List.length (_audio_buf self)) < _audio_buf_len self ->
  Z.of_nat (List.length (_audio_buf (pushed frames self))) < _audio_buf_len self.
Proof.
  intros Hlt. induction frames as [ | a frames IH] using rev_ind; [ exact Hlt | ].
  rewrite pushed_snoc, on_audio_buf. unfold fills.
  rewrite pushed_buf_len, length_app. cbn [List.length].
  destruct (Z.eqb_spec (Z.of_nat (List.length (_audio_buf (pushed frames self)) + 1))
                       (_audio_buf_len self)) as [E | E].
  - rewrite length_skipn, length_app. cbn [List.length]. lia.
  - rewrite length_app. cbn [List.length]. lia.
Qed.

(** ** Runs that emit but do not reach the engine *)

(** X5: on a client without an engine the pushes that do not fill the
    buffer return normally; the push that fills it raises, after the
    normaliser ran and with the two oldest frames already retired: the
    [AttributeError] of the missing engine, or the error of the normaliser
    if that failed first. *)
Theorem callback_without_engine (self : HowlClient) (in_data : bytes) :
  engine self = None ->
  if fills in_data self
  then
    result (_on_audio in_data self) =
      match normalize (_audio_float_size self)
                      (bytes_join (_audio_buf self ++ [in_data])) with
      | Returns _ =>
          Raises (AttributeError "'NoneType' object has no attribute 'infer'")
      | Raises e => Raises e
      end /\
    calls (_on_audio in_data self) =
      [call_normalize_audio (bytes_join (_audio_buf self ++ [in_data]))] /\
    after (_on_audio in_data self) = retired in_data self
  else
    _on_audio in_data self = (Returns (in_data, paContinue), [], appended in_data self).
Proof.
  intros He. destruct (fills in_data self) eqn:F;
    [ | exact (on_audio_priming_run _ _ F) ].
  rewrite (on_audio_emit_eq _ _ F).
  rewrite result_bind, calls_bind, after_bind, normalize_audio_run.
  cbn [result calls after fst snd].
  change (_audio_float_size (retired in_data self)) with (_audio_float_size self).
  destruct (normalize (_audio_float_size self) _) as [arr | e];
    [ | repeat split; reflexivity ].
  rewrite result_bind, calls_bind, after_bind, self_engine_infer_run.
  change (engine (retired in_data self)) with (engine self). rewrite He.
  repeat split; reflexivity.
Qed.

(** X6: when the frames of a filled buffer add up to an odd number of
    bytes, the run raises the [ValueError] of the normaliser; the engine is
    not called and keeps its state, no listener is called, and the two
    oldest frames are retired all the same. *)
Theorem odd_window_raises (self : HowlClient) (in_data : bytes) :
  fills in_data self = true ->
  Nat.odd (List.length (bytes_join (_audio_buf self ++ [in_data]))) = true ->
  result (_on_audio in_data self) =
    Raises (ValueError "buffer size must be a multiple of element size") /\
  calls (_on_audio in_data self) =
    [call_normalize_audio (bytes_join (_audio_buf self ++ [in_data]))] /\
  after (_on_audio in_data self) = retired in_data self.
Proof.
  intros F Hodd. rewrite (on_audio_emit_eq _ _ F).
  rewrite result_bind, calls_bind, after_bind, normalize_audio_run.
  cbn [result calls after fst snd].
  unfold normalize.
  pose proof (frombuffer_length (bytes_join (_audio_buf self ++ [in_data]))) as H.
  destruct (Numpy.frombuffer_int16 _) as [xs | e].
  - rewrite H, Nat.odd_mul in Hodd. discriminate Hodd.
  - destruct H as [_ ->]. repeat split; reflexivity.
Qed.

(** ** The size of a window *)

Lemma concat_uniform_length (fs : list bytes) (n : nat) :
  Forall (fun f => List.length f = n) fs ->
  List.length (bytes_join fs) = (List.length fs * n)%nat.
Proof.
  unfold bytes_join. induction 1 as [ | f fs Hf _ IH]; [ reflexivity | ].
  cbn [List.concat List.length]. rewrite length_app, IH, Hf. lia.
Qed.

Lemma Forall_skipn {A} (P : A -> Prop) (n : nat) (l : list A) :
  Forall P l -> Forall P (skipn n l).
Proof.
  intros H. rewrite <- (firstn_skipn n l) in H.
  apply Forall_app in H. apply H.
Qed.

(** The window of an emitting push on a client as constructed: the 16 most
    recent frames, joined. *)
Lemma emitted_recent_16 (engine0 : option Engine)
    (context : option InferenceContext) (device0 : Device) (chunk_size0 : Z)
    (audio : PyAudio) (ls : list Listener) (frames : list bytes) (a w : bytes) :
  emitted (calls (_on_audio a (pushed frames
      (fresh_client engine0 context device0 chunk_size0 audio ls)))) = Some w ->
  w = bytes_join (skipn (List.length (frames ++ [a]) - 16) (frames ++ [a])) /\
  (16 <= List.length (frames ++ [a]))%nat.
Proof.
  pose proof (client_buf engine0 context device0 chunk_size0 audio ls) as Hb.
  pose proof (client_buf_len engine0 context device0 chunk_size0 audio ls) as Hn.
  rewrite on_audio_emitted.
  destruct (fills a _) eqn:F; [ | discriminate ].
  intros [= <-].
  rewrite (fills_pushed _ _ _ Hb Hn) in F.
  unfold emits_at in F. apply andb_prop in F. destruct F as [F1 F2].
  apply Nat.leb_le in F1.
  assert (L : buf_len_after (List.length frames) = 15%nat).
  { unfold buf_len_after. rewrite Nat.even_succ, <- Nat.negb_even in F2.
    destruct (Nat.ltb_spec (List.length frames) 16); [ lia | ].
    destruct (Nat.even (List.length frames)); [ discriminate | reflexivity ]. }
  rewrite (pushed_buf _ _ Hb Hn), L, length_app. cbn [List.length].
  split; [ | lia ].
  rewrite <- (skipn_snoc (List.length frames - 15) frames a) by lia.
  do 2 f_equal. lia.
Qed.

(** X7: when every frame pushed into a client as constructed holds [c]
    int16 samples (2c bytes), every window emitted holds 32c bytes and
    normalises, without error, to a signal of exactly 16c samples; the
    tensor handed to the engine has that many elements. *)
Theorem window_holds_16_chunks (engine0 : option Engine)
    (context : option InferenceContext) (device0 : Device) (chunk_size0 : Z)
    (audio : PyAudio) (ls : list Listener) (frames : list bytes) (a w : bytes)
    (c : nat) :
  Forall (fun f => List.length f = (2 * c)%nat) frames ->
  List.length a = (2 * c)%nat ->
  emitted (calls (_on_audio a (pushed frames
      (fresh_client engine0 context device0 chunk_size0 audio ls)))) = Some w ->
  List.length w = (32 * c)%nat /\
  exists arr,
    normalize 32767 w = Returns arr /\
    List.length arr = (16 * c)%nat /\
    List.length (t_data (to_tensor arr device0)) = (16 * c)%nat.
Proof.
  intros Hframes Ha He.
  destruct (emitted_recent_16 _ _ _ _ _ _ _ _ _ He) as [-> Hlen].
  assert (Hall : Forall (fun f => List.length f = (2 * c)%nat) (frames ++ [a])).
  { apply Forall_app. split; [ exact Hframes | constructor; [ exact Ha | constructor ] ]. }
  assert (Hw : List.length (bytes_join
                 (skipn (List.length (frames ++ [a]) - 16) (frames ++ [a])))
               = (32 * c)%nat).
  { rewrite (concat_uniform_length _ (2 * c)) by (apply Forall_skipn; exact Hall).
    rewrite length_skipn.
    replace (List.length (frames ++ [a]) - (List.length (frames ++ [a]) - 16))%nat
      with 16%nat by lia.
    lia. }
  split; [ exact Hw | ].
  unfold normalize.
  pose proof (frombuffer_length (bytes_join
                (skipn (List.length (frames ++ [a]) - 16) (frames ++ [a])))) as H.
  destruct (Numpy.frombuffer_int16 _) as [xs | e].
  - eexists. split; [ reflexivity | ].
    unfold to_tensor, Numpy.divide, Numpy.astype_float. cbn [t_data].
    rewrite !length_map. lia.
  - destruct H as [Hodd _]. rewrite Hw in Hodd.
    replace (32 * c)%nat with (2 * (16 * c))%nat in Hodd by lia.
    rewrite Nat.odd_mul in Hodd. discriminate Hodd.
Qed.

(** ** The calls of a detecting run, in order *)

Lemma map_M_vocab_words (seq : list Z) (words : list string) (s : HowlClient)
    (c : InferenceContext) :
  ctx s = Some c ->
  Forall2 (fun x w => vocab c x = Some w) seq words ->
  map_M self_ctx_vocab seq s = (Returns words, [], s).
Proof.
  intros Hc. induction 1 as [ | x w seq words Hx _ IH]; [ reflexivity | ].
  cbn [map_M]. unfold bind at 1. unfold self_ctx_vocab at 1. rewrite Hc, Hx.
  unfold bind. rewrite IH. reflexivity.
Qed.

Lemma for_each_run {A} (xs : list A) (body : A -> M unit) (s : HowlClient)
    (ev : A -> Event) :
  (forall x, In x xs -> body x s = (Returns tt, [ev x], s)) ->
  for_each xs body s = (Returns tt, map ev xs, s).
Proof.
  induction xs as [ | x rest IH]; intros Hb; [ reflexivity | ].
  cbn [for_each map]. unfold bind.
  rewrite (Hb x) by (left; reflexivity).
  rewrite IH by (intros y Hy; apply Hb; right; exact Hy). reflexivity.
Qed.

Lemma notify_run (s : HowlClient) (eng : Engine) (c : InferenceContext)
    (words : list string) :
  engine s = Some eng ->
  ctx s = Some c ->
  Forall2 (fun x w => vocab c x = Some w) (engine_sequence eng) words ->
  logging_info (str_title (String.concat " " words) ++ " detected") = Returns tt ->
  (forall lis, In lis (listeners s) ->
               call_listener lis (engine_sequence eng) = Returns tt) ->
  notify true s =
  (Returns tt,
   call_logging_info (str_title (String.concat " " words) ++ " detected")
   :: map (fun lis => call_lis lis (engine_sequence eng)) (listeners s),
   s).
Proof.
  intros He Hc Hw Hlog Hlis. unfold notify.
  unfold bind at 1. unfold self_engine_sequence at 1. rewrite He.
  unfold bind at 1. rewrite (map_M_vocab_words _ _ _ _ Hc Hw).
  unfold bind at 1. unfold called at 1. rewrite Hlog.
  unfold bind at 1. unfold bind at 1. unfold get, ret.
  rewrite (for_each_run (listeners s) _ s
             (fun lis => call_lis lis (engine_sequence eng))).
  - reflexivity.
  - intros lis Hin. unfold bind, self_engine_sequence, called.
    rewrite He, (Hlis lis Hin). reflexivity.
Qed.

Lemma on_audio_detect_run (self : HowlClient) (in_data : bytes)
    (eng eng' : Engine) (arr : list spec_float) (c : InferenceContext)
    (words : list string) :
  fills in_data self = true ->
  normalize (_audio_float_size self) (bytes_join (_audio_buf self ++ [in_data]))
    = Returns arr ->
  engine self = Some eng ->
  engine_infer eng (to_tensor arr (device self)) = (Returns true, eng') ->
  ctx self = Some c ->
  Forall2 (fun x w => vocab c x = Some w) (engine_sequence eng') words ->
  logging_info (str_title (String.concat " " words) ++ " detected") = Returns tt ->
  (forall lis, In lis (listeners self) ->
               call_listener lis (engine_sequence eng') = Returns tt) ->
  _on_audio in_data self =
  (Returns (in_data, paContinue),
   call_normalize_audio (bytes_join (_audio_buf self ++ [in_data]))
   :: call_infer (to_tensor arr (device self))
   :: call_logging_info (str_title (String.concat " " words) ++ " detected")
   :: map (fun lis => call_lis lis (engine_sequence eng')) (listeners self),
   set_engine (Some eng') (retired in_data self)).
Proof.
  intros F Hnorm Heng Hinf Hc Hw Hlog Hlis.
  rewrite (on_audio_emit_eq _ _ F).
  unfold bind at 1. rewrite normalize_audio_run.
  change (_audio_float_size (retired in_data self)) with (_audio_float_size self).
  rewrite Hnorm.
  unfold bind at 1. rewrite self_engine_infer_run.
  change (engine (retired in_data self)) with (engine self).
  rewrite Heng, Hinf. cbn [fst snd].
  unfold bind at 1.
  rewrite (notify_run _ eng' c words); try assumption; try reflexivity.
  unfold ret. cbn [app]. rewrite app_nil_r. reflexivity.
Qed.

(** The same run when the log call raises: the exception leaves the
    callback before the loop over the listeners is reached. *)
Lemma notify_log_raises (s : HowlClient) (eng : Engine) (c : InferenceContext)
    (words : list string) (e : Exn) :
  engine s = Some eng ->
  ctx s = Some c ->
  Forall2 (fun x w => vocab c x = Some w) (engine_sequence eng) words ->
  logging_info (str_title (String.concat " " words) ++ " detected") = Raises e ->
  notify true s =
  (Raises e,
   [call_logging_info (str_title (String.concat " " words) ++ " detected")],
   s).
Proof.
  intros He Hc Hw Hlog. unfold notify.
  unfold bind at 1. unfold self_engine_sequence at 1. rewrite He.
  unfold bind at 1. rewrite (map_M_vocab_words _ _ _ _ Hc Hw).
  unfold bind at 1. unfold called at 1. rewrite Hlog. reflexivity.
Qed.

Lemma on_audio_log_raises_run (self : HowlClient) (in_data : bytes)
    (eng eng' : Engine) (arr : list spec_float) (c : InferenceContext)
    (words : list string) (e : Exn) :
  fills in_data self = true ->
  normalize (_audio_float_size self) (bytes_join (_audio_buf self ++ [in_data]))
    = Returns arr ->
  engine self = Some eng ->
  engine_infer eng (to_tensor arr (device self)) = (Returns true, eng') ->
  ctx self = Some c ->
  Forall2 (fun x w => vocab c x = Some w) (engine_sequence eng') words ->
  logging_info (str_title (String.concat " " words) ++ " detected") = Raises e ->
  _on_audio in_data self =
  (Raises e,
   [call_normalize_audio (bytes_join (_audio_buf self ++ [in_data]));
    call_infer (to_tensor arr (device self));
    call_logging_info (str_title (String.concat " " words) ++ " detected")],
   set_engine (Some eng') (retired in_data self)).
Proof.
  intros F Hnorm Heng Hinf Hc Hw Hlog.
  rewrite (on_audio_emit_eq _ _ F).
  unfold bind at 1. rewrite normalize_audio_run.
  change (_audio_float_size (retired in_data self)) with (_audio_float_size self).
  rewrite Hnorm.
  unfold bind at 1. rewrite self_engine_infer_run.
  change (engine (retired in_data self)) with (engine self).
  rewrite Heng, Hinf. cbn [fst snd].
  unfold bind at 1.
  rewrite (notify_log_raises _ eng' c words e); try assumption; reflexivity.
Qed.

(** X8: a run that detects, on a client whose vocabulary knows every
    token and whose log call and listeners return, makes its calls in this
    order: the normaliser on the window, the engine on the tensor, one log
    message (the vocabulary words of the sequence joined by spaces, through
    [str.title], followed by " detected"), then the listeners; it returns
    [paContinue] and leaves the engine in the state [infer] gave. *)
Theorem detecting_run_call_order (self : HowlClient) (in_data : bytes)
    (eng eng' : Engine) (arr : list spec_float) (c : InferenceContext)
    (words : list string) :
  fills in_data self = true ->
  normalize (_audio_float_size self) (bytes_join (_audio_buf self ++ [in_data]))
    = Returns arr ->
  engine self = Some eng ->
  engine_infer eng (to_tensor arr (device self)) = (Returns true, eng') ->
  ctx self = Some c ->
  Forall2 (fun x w => vocab c x = Some w) (engine_sequence eng') words ->
  logging_info (str_title (String.concat " " words) ++ " detected") = Returns tt ->
  (forall lis, In lis (listeners self) ->
               call_listener lis (engine_sequence eng') = Returns tt) ->
  result (_on_audio in_data self) = Returns (in_data, paContinue) /\
  calls (_on_audio in_data self) =
    call_normalize_audio (bytes_join (_audio_buf self ++ [in_data]))
    :: call_infer (to_tensor arr (device self))
    :: call_logging_info (str_title (String.concat " " words) ++ " detected")
    :: map (fun lis => call_lis lis (engine_sequence eng')) (listeners self) /\
  engine (after (_on_audio in_data self)) = Some eng'.
Proof.
  intros F Hnorm Heng Hinf Hc Hw Hlog Hlis.
  rewrite (on_audio_detect_run _ _ _ _ _ _ _ F Hnorm Heng Hinf Hc Hw Hlog Hlis).
  repeat split.
Qed.

(** ** Registration *)

Lemma registered_eq (ls : list Listener) (self : HowlClient) :
  registered ls self = set_listeners (listeners self ++ ls) self.
Proof.
  induction ls as [ | l ls IH] using rev_ind.
  - cbn. rewrite app_nil_r. destruct self; reflexivity.
  - rewrite registered_snoc, IH. cbn. rewrite <- app_assoc. reflexivity.
Qed.

(** X9: [add_listener] may be called at any time: registering listeners
    changes nothing of the client but the listener list, to which they are
    appended in order (a listener registered twice appears twice), and the
    next detecting run calls the listeners registered before, then the new
    ones, each with the engine's sequence. *)
Theorem registration_appends_and_notifies (self : HowlClient)
    (ls : list Listener) (in_data : bytes) (eng eng' : Engine)
    (arr : list spec_float) (c : InferenceContext) (words : list string) :
  fills in_data self = true ->
  normalize (_audio_float_size self) (bytes_join (_audio_buf self ++ [in_data]))
    = Returns arr ->
  engine self = Some eng ->
  engine_infer eng (to_tensor arr (device self)) = (Returns true, eng') ->
  ctx self = Some c ->
  Forall2 (fun x w => vocab c x = Some w) (engine_sequence eng') words ->
  logging_info (str_title (String.concat " " words) ++ " detected") = Returns tt ->
  (forall lis, In lis (listeners self ++ ls) ->
               call_listener lis (engine_sequence eng') = Returns tt) ->
  registered ls self = set_listeners (listeners self ++ ls) self /\
  lis_calls (calls (_on_audio in_data (registered ls self))) =
    map (fun lis => (lis, engine_sequence eng')) (listeners self ++ ls).
Proof.
  intros F Hnorm Heng Hinf Hc Hw Hlog Hlis.
  split; [ apply registered_eq | ].
  rewrite registered_eq.
  rewrite (on_audio_detect_run (set_listeners (listeners self ++ ls) self)
             in_data eng eng' arr c words); try assumption.
  cbn [calls fst snd lis_calls listeners set_listeners]. apply lis_calls_map.
Qed.

(** ** What a sequence of pushes changes, and what the engine sees *)

Lemma pushed_frame_condition (frames : list bytes) (self : HowlClient) :
  exists e b l,
    pushed frames self = set_engine e (set_audio_buf b (set_last_data l self)).
Proof.
  induction frames as [ | a frames IH] using rev_ind.
  - exists (engine self), (_audio_buf self), (last_data self).
    destruct self; reflexivity.
  - rewrite pushed_snoc. destruct (on_audio_after a (pushed frames self)) as [e ->].
    destruct IH as (e0 & b0 & l0 & ->).
    eexists e, _, _. reflexivity.
Qed.

(** X10: the callback writes three attributes only.  After any sequence of
    pushes, returning or raising, the listeners, the chunk size, the device,
    the context, the audio platform, the depth, the divisor and the stream
    are those of the client before; [last_data] holds the frame pushed
    last. *)
Theorem pushes_write_three_attributes (self : HowlClient) (frames : list bytes)
    (a : bytes) :
  let s' := pushed (frames ++ [a]) self in
  listeners s' = listeners self /\ chunk_size s' = chunk_size self /\
  device s' = device self /\ ctx s' = ctx self /\ _audio s' = _audio self /\
  _audio_buf_len s' = _audio_buf_len self /\
  _audio_float_size s' = _audio_float_size self /\
  stream s' = stream self /\
  last_data s' = last_frame a.
Proof.
  cbv zeta. split; [ | split; [ | split; [ | split; [ | split;
    [ | split; [ | split; [ | split ] ] ] ] ] ] ];
    try (destruct (pushed_frame_condition (frames ++ [a]) self)
           as (e & b & l & ->); reflexivity).
  rewrite pushed_snoc. apply on_audio_last_data.
Qed.

Lemma on_audio_engine_some (a : bytes) (self : HowlClient) (eng : Engine) :
  engine self = Some eng ->
  (exists eng', engine (after (_on_audio a self)) = Some eng') /\
  infer_calls (calls (_on_audio a self)) =
    if fills a self
    then match normalize (_audio_float_size self)
                         (bytes_join (_audio_buf self ++ [a])) with
         | Returns arr => [to_tensor arr (device self)]
         | Raises _ => []
         end
    else [].
Proof.
  intros He. destruct (fills a self) eqn:F.
  - rewrite (on_audio_emit_eq _ _ F).
    rewrite calls_bind, after_bind, normalize_audio_run.
    cbn [result calls after fst snd].
    change (_audio_float_size (retired a self)) with (_audio_float_size self).
    destruct (normalize (_audio_float_size self) _) as [arr | e];
      [ | split; [ exists eng; exact He | reflexivity ] ].
    rewrite calls_bind, after_bind, self_engine_infer_run.
    change (engine (retired a self)) with (engine self). rewrite He.
    cbn [result calls after fst snd].
    destruct (engine_infer eng (to_tensor arr (device self))) as [[detected | e] eng'];
      cbn [result calls after fst snd];
      [ | split; [ exists eng'; reflexivity | reflexivity ] ].
    rewrite calls_bind, after_bind.
    destruct (notifying_notify detected (set_engine (Some eng') (retired a self)))
      as (N1 & N2 & _).
    assert (I : forall t1 t2, infer_calls (t1 ++ t2) = infer_calls t1 ++ infer_calls t2).
    { induction t1 as [ | ev t1 IH]; intros t2; [ reflexivity | ].
      destruct ev; cbn; rewrite ?IH; reflexivity. }
    cbn [app infer_calls]. rewrite I, N2, N1.
    destruct (result (notify detected _)); cbn;
      (split; [ exists eng'; reflexivity | reflexivity ]).
  - rewrite (on_audio_priming_run _ _ F).
    split; [ exists eng; exact He | reflexivity ].
Qed.

Lemma firstn_16_of_recent {A} (prefix rest : list A) (a : A) :
  (16 <= List.length (prefix ++ [a]))%nat ->
  skipn (List.length (prefix ++ [a]) - 16) (prefix ++ [a]) =
  firstn 16 (skipn (S (List.length prefix) - 16) (prefix ++ a :: rest)).
Proof.
  rewrite length_app. cbn [List.length]. intros H.
  replace (List.length prefix + 1)%nat with (S (List.length prefix)) by lia.
  replace (prefix ++ a :: rest) with ((prefix ++ [a]) ++ rest)
    by (rewrite <- app_assoc; reflexivity).
  rewrite (skipn_app (S (List.length prefix) - 16) (prefix ++ [a]) rest).
  rewrite length_app. cbn [List.length].
  replace (S (List.length prefix) - 16 - (List.length prefix + 1))%nat
    with 0%nat by lia.
  rewrite skipn_0, firstn_app, length_skipn, length_app. cbn [List.length].
  replace (16 - (List.length prefix + 1 - (S (List.length prefix) - 16)))%nat
    with 0%nat by lia.
  rewrite firstn_0, app_nil_r, firstn_all2; [ reflexivity | ].
  rewrite length_skipn, length_app. cbn [List.length]. lia.
Qed.

Lemma feed_infer_calls (engine0 : option Engine)
    (context : option InferenceContext) (device0 : Device) (chunk_size0 : Z)
    (audio : PyAudio) (ls : list Listener) (eng0 : Engine)
    (rest prefix : list bytes) :
  engine0 = Some eng0 ->
  map (fun r => infer_calls (calls r))
      (feed rest (pushed prefix
         (fresh_client engine0 context device0 chunk_size0 audio ls))) =
  map (fun k =>
         if emits_at k
         then match normalize 32767
                      (bytes_join (firstn 16 (skipn (k - 16) (prefix ++ rest)))) with
              | Returns arr => [to_tensor arr device0]
              | Raises _ => []
              end
         else [])
      (seq (S (List.length prefix)) (List.length rest)).
Proof.
  intros He0.
  pose proof (client_buf engine0 context device0 chunk_size0 audio ls) as Hb.
  pose proof (client_buf_len engine0 context device0 chunk_size0 audio ls) as Hn.
  assert (Heng : forall p, exists eng,
            engine (pushed p (fresh_client engine0 context device0 chunk_size0 audio ls))
            = Some eng).
  { induction p as [ | a p IH] using rev_ind.
    - exists eng0. rewrite <- He0. unfold fresh_client.
      rewrite registered_eq. reflexivity.
    - destruct IH as [eng IH]. rewrite pushed_snoc.
      exact (proj1 (on_audio_engine_some a _ eng IH)). }
  assert (Hattr : forall p,
            _audio_float_size
              (pushed p (fresh_client engine0 context device0 chunk_size0 audio ls))
            = 32767 /\
            device (pushed p (fresh_client engine0 context device0 chunk_size0 audio ls))
            = device0).
  { intros p. destruct (pushed_frame_condition p
        (fresh_client engine0 context device0 chunk_size0 audio ls))
      as (e & b & l & ->).
    unfold fresh_client. rewrite registered_eq. split; reflexivity. }
  revert prefix. induction rest as [ | a rest IH]; intros prefix; [ reflexivity | ].
  cbn [feed map List.length seq].
  destruct (Heng prefix) as [eng Hp].
  rewrite (proj2 (on_audio_engine_some a _ eng Hp)).
  rewrite (fills_pushed _ _ _ Hb Hn).
  destruct (Hattr prefix) as [-> ->].
  rewrite <- pushed_snoc, IH.
  rewrite length_app, Nat.add_1_r, <- app_assoc. cbn [app].
  f_equal.
  destruct (emits_at (S (List.length prefix))) eqn:E; [ | reflexivity ].
  assert (L : (16 <= List.length (prefix ++ [a]))%nat).
  { unfold emits_at in E. apply andb_prop in E. destruct E as [E _].
    apply Nat.leb_le in E. rewrite length_app. cbn [List.length]. lia. }
  assert (B : _audio_buf (pushed prefix
                (fresh_client engine0 context device0 chunk_size0 audio ls)) ++ [a]
              = skipn (List.length (prefix ++ [a]) - 16) (prefix ++ [a])).
  { rewrite (pushed_buf _ _ Hb Hn).
    assert (L15 : buf_len_after (List.length prefix) = 15%nat).
    { unfold emits_at in E. apply andb_prop in E. destruct E as [E1 E2].
      apply Nat.leb_le in E1. unfold buf_len_after.
      rewrite Nat.even_succ, <- Nat.negb_even in E2.
      destruct (Nat.ltb_spec (List.length prefix) 16); [ lia | ].
      destruct (Nat.even (List.length prefix)); [ discriminate | reflexivity ]. }
    rewrite L15, length_app. cbn [List.length].
    rewrite <- (skipn_snoc (List.length prefix - 15) prefix a) by lia.
    f_equal. lia. }
  rewrite B, (firstn_16_of_recent prefix rest a L). reflexivity.
Qed.

(** X11: on a client constructed with an engine, the engine sees every
    window, once and in push order: the k-th push hands it the normalised
    16 frames that end with frame k exactly when k >= 16 and k is even (and
    the window normalises), and nothing otherwise; no window is dropped,
    repeated or reordered, whatever the engine answers or raises. *)
Theorem engine_sees_every_window_in_order (eng0 : Engine)
    (context : option InferenceContext) (device0 : Device) (chunk_size0 : Z)
    (audio : PyAudio) (ls : list Listener) (frames : list bytes) :
  map (fun r => infer_calls (calls r))
      (feed frames (fresh_client (Some eng0) context device0 chunk_size0 audio ls)) =
  map (fun k =>
         if emits_at k
         then match normalize 32767
                      (bytes_join (firstn 16 (skipn (k - 16) frames))) with
              | Returns arr => [to_tensor arr device0]
              | Raises _ => []
              end
         else [])
      (seq 1 (List.length frames)).
Proof.
  exact (feed_infer_calls (Some eng0) context device0 chunk_size0 audio ls eng0
           frames [] eq_refl).
Qed.

(** ** More on [start] *)

Lemma info_calls_app (t1 t2 : list Event) :
  info_calls (t1 ++ t2) = info_calls t1 ++ info_calls t2.
Proof.
  induction t1 as [ | ev t1 IH]; [ reflexivity | ].
  destruct ev; cbn; rewrite ?IH; reflexivity.
Qed.

Lemma info_calls_map (idxs : list nat) :
  info_calls (map call_get_device_info_by_index idxs) = idxs.
Proof. induction idxs as [ | i idxs IH]; cbn; [ | rewrite IH ]; reflexivity. Qed.

(** X12: a configured [start] queries the devices in index order and stops
    at the first one named pulse: with such a device at index i it queries
    exactly the indices 0..i and none after it; with none it queries every
    device.  With no device at all it queries nothing and still asks for
    device 0. *)
Theorem start_enumeration_stops_at_pulse (self : HowlClient) (e : Engine)
    (c : InferenceContext) :
  engine self = Some e -> ctx self = Some c ->
  let devs := pa_devices (_audio self) in
  ((exists i d,
      nth_error devs i = Some d /\ name d = "pulse"%string /\
      (forall j d', (j < i)%nat -> nth_error devs j = Some d' ->
                    name d' <> "pulse"%string) /\
      info_calls (calls (start self)) = seq 0 (S i))
   \/
   ((forall d, In d devs -> name d <> "pulse"%string) /\
    info_calls (calls (start self)) = seq 0 (List.length devs))) /\
  (devs = [] ->
   exists rest,
     calls (start self) =
     call_get_device_count
     :: call_open {| format := paInt16;
                     channels := 1;
                     rate := 16000;
                     input := true;
                     input_device_index := 0;
                     frames_per_buffer := chunk_size self;
                     stream_callback := self_on_audio |}
     :: rest).
Proof.
  intros He Hc devs.
  pose proof (start_run self e c He Hc) as R. cbv zeta in R.
  pose proof (first_pulse_spec (pa_devices (_audio self))) as P.
  fold devs in R, P.
  assert (I : info_calls (calls (start self)) =
              seq 0 (match first_pulse devs with
                     | Some i => S i
                     | None => List.length devs
                     end)).
  { destruct (pa_open_error (_audio self) _); rewrite R;
      cbn [calls fst snd info_calls];
      rewrite info_calls_app, info_calls_map; cbn; apply app_nil_r. }
  split.
  - destruct (first_pulse devs) as [i | ].
    + left. destruct P as [(d & Hd & Hn) Hfirst].
      exists i, d. auto.
    + right. auto.
  - intros Hnil. rewrite Hnil in R. cbn [first_pulse List.length seq map app] in R.
    destruct (pa_open_error (_audio self) _); rewrite R; eexists; reflexivity.
Qed.

Lemma start_open_unique (self : HowlClient) (e : Engine) (c : InferenceContext)
    (cfg : StreamConfig) :
  engine self = Some e -> ctx self = Some c ->
  In (call_open cfg) (calls (start self)) ->
  cfg = {| format := paInt16;
           channels := 1;
           rate := 16000;
           input := true;
           input_device_index :=
             match first_pulse (pa_devices (_audio self)) with
             | Some i => i
             | None => 0%nat
             end;
           frames_per_buffer := chunk_size self;
           stream_callback := self_on_audio |}.
Proof.
  intros He Hc Hin.
  pose proof (start_run self e c He Hc) as R. cbv zeta in R.
  destruct (pa_open_error (_audio self) _) as [err | ];
    rewrite R in Hin; cbn [calls fst snd] in Hin;
    (destruct Hin as [Hin | Hin]; [ discriminate Hin | ]);
    apply in_app_or in Hin;
    (destruct Hin as [Hin | Hin];
     [ apply in_map_iff in Hin; destruct Hin as (i & Hi & _); discriminate Hi | ]).
  - destruct Hin as [Hin | []]. injection Hin as <-. reflexivity.
  - destruct Hin as [Hin | [Hin | []]]; [ | discriminate Hin ].
    injection Hin as <-. reflexivity.
Qed.

(** X13: the outcome of [start] is decided by the call that opens the
    stream.  When that call fails, [start] raises its error, the stream is
    never started and the client is left exactly as it was; when it
    succeeds, [start] returns, the stream is started and the client holds
    it in [stream], nothing else changed. *)
Theorem start_follows_open (self : HowlClient) (cfg : StreamConfig) :
  In (call_open cfg) (calls (start self)) ->
  match pa_open_error (_audio self) cfg with
  | Some err =>
      result (start self) = Raises err /\
      after (start self) = self /\
      ~ In call_start_stream (calls (start self))
  | None =>
      result (start self) = Returns tt /\
      after (start self) =
        set_stream (Some {| opened_with := cfg; started := true |}) self /\
      In call_start_stream (calls (start self))
  end.
Proof.
  intros Hin.
  destruct (engine self) as [e | ] eqn:He;
    [ destruct (ctx self) as [c | ] eqn:Hc | ].
  - pose proof (start_open_unique self e c cfg He Hc Hin) as ->.
    pose proof (start_run self e c He Hc) as R. cbv zeta in R.
    destruct (pa_open_error (_audio self) _) as [err | ]; rewrite R;
      cbn [result calls after fst snd].
    + repeat split. intros [H | H]; [ discriminate H | ].
      apply in_app_or in H. destruct H as [H | [H | []]]; [ | discriminate H ].
      apply in_map_iff in H. destruct H as (i & Hi & _). discriminate Hi.
    + repeat split. right. apply in_or_app. right. right. left. reflexivity.
  - exfalso. revert Hin. unfold start, bind, get, raise. rewrite He, Hc. cbn. auto.
  - exfalso. revert Hin. unfold start, bind, get, raise. rewrite He. cbn. auto.
Qed.

(** X14: [start] never reads [stream].  On two clients that differ only in
    the stream they hold, and that face the same platform, it makes the
    same calls with the same outcome: a stream already held is not a
    reason to refuse.  When the call returns, the stream held before is
    replaced by the new one; when it raises, the stream held before is
    kept. *)
Theorem start_never_reads_stream (v : option Stream) (self : HowlClient) :
  result (start (set_stream v self)) = result (start self) /\
  calls (start (set_stream v self)) = calls (start self) /\
  after (start (set_stream v self)) =
    if returned (result (start self))
    then after (start self)
    else set_stream v self.
Proof.
  destruct (engine self) as [e | ] eqn:He;
    [ destruct (ctx self) as [c | ] eqn:Hc | ].
  - pose proof (start_run self e c He Hc) as R.
    pose proof (start_run (set_stream v self) e c He Hc) as R2.
    cbv zeta in R, R2. cbn [_audio chunk_size set_stream] in R2.
    destruct (pa_open_error (_audio self) _) as [err | ];
      rewrite R, R2; repeat split.
  - unfold start, bind, get, raise.
    cbn [engine ctx set_stream]. rewrite He, Hc. repeat split.
  - unfold start, bind, get, raise.
    cbn [engine ctx set_stream]. rewrite He. repeat split.
Qed.

(** ** Loading a pretrained model *)

(** X15: [from_pretrained] sets the engine and the context together or not
    at all.  When the hub fails, or when moving the engine to the client's
    device fails, it raises that error and the client is unchanged.
    Otherwise the client holds the moved engine and the loaded context,
    whatever it held before, and [start] then passes its configuration
    checks and goes on to open the stream. *)
Theorem from_pretrained_all_or_nothing (self : HowlClient) (name0 : string) :
  match hub_load name0 with
  | Raises e => from_pretrained name0 self = (Raises e, [], self)
  | Returns (eng, c) =>
      match engine_to eng (device self) with
      | Raises e => from_pretrained name0 self = (Raises e, [], self)
      | Returns moved =>
          from_pretrained name0 self =
            (Returns tt, [], set_ctx (Some c) (set_engine (Some moved) self)) /\
          exists cfg rest,
            calls (start (after (from_pretrained name0 self))) =
              call_get_device_count :: rest /\
            In (call_open cfg) rest
      end
  end.
Proof.
  unfold from_pretrained, bind, external, get, modify.
  destruct (hub_load name0) as [[eng c] | e]; [ | reflexivity ].
  cbn [fst snd].
  destruct (engine_to eng (device self)) as [moved | e]; [ | reflexivity ].
  split; [ reflexivity | ].
  cbn [after snd app].
  pose proof (start_run (set_ctx (Some c) (set_engine (Some moved) self))
                moved c eq_refl eq_refl) as R.
  cbv zeta in R.
  destruct (pa_open_error _ _) as [err | ];
    rewrite R; cbn [calls fst snd]; do 2 eexists;
    (split; [ reflexivity | ]); apply in_or_app; right; left; reflexivity.
Qed.

(** ** Waiting for the stream *)

Lemma join_loop_returns (st : Stream) (self : HowlClient) (k : nat) :
  stream self = Some st ->
  forall polls fuel,
    (forall j, (j < k)%nat -> is_active st (polls + j) = true) ->
    is_active st (polls + k) = false ->
    (k < fuel)%nat ->
    join_loop fuel polls self =
    Some (Returns tt,
          List.concat (repeat [call_is_active; call_sleep one_tenth] k)
          ++ [call_is_active]).
Proof.
  intros Hs. induction k as [ | k IH]; intros polls fuel Hact Hstop Hfuel.
  - destruct fuel as [ | fuel]; [ lia | ].
    cbn [join_loop]. rewrite Hs. rewrite Nat.add_0_r in Hstop. rewrite Hstop.
    reflexivity.
  - destruct fuel as [ | fuel]; [ lia | ].
    cbn [join_loop]. rewrite Hs.
    pose proof (Hact 0%nat (Nat.lt_0_succ k)) as H0. rewrite Nat.add_0_r in H0.
    rewrite H0, (IH (S polls) fuel).
    + reflexivity.
    + intros j Hj. rewrite Nat.add_succ_comm. apply Hact. lia.
    + rewrite Nat.add_succ_comm. exact Hstop.
    + lia.
Qed.

Lemma join_loop_waits (st : Stream) (self : HowlClient) (n : nat) :
  stream self = Some st ->
  forall polls,
    (forall j, (j < n)%nat -> is_active st (polls + j) = true) ->
    join_loop n polls self = None.
Proof.
  intros Hs. induction n as [ | n IH]; intros polls Hact; [ reflexivity | ].
  cbn [join_loop]. rewrite Hs.
  pose proof (Hact 0%nat (Nat.lt_0_succ n)) as H0. rewrite Nat.add_0_r in H0.
  rewrite H0, (IH (S polls)); [ reflexivity | ].
  intros j Hj. rewrite Nat.add_succ_comm. apply Hact. lia.
Qed.

(** X16: [join] on a client whose [start] never set [stream] raises an
    [AttributeError] at once.  Otherwise it polls the stream, sleeping 0.1 s
    (the float64 nearest to 1/10) after every poll that finds it active: it
    has not returned as long as every poll so far found the stream active,
    and it returns at the first poll that finds it inactive, after exactly
    as many sleeps as there were active polls.  It never changes the
    client. *)
Theorem join_returns_at_first_inactive_poll (self : HowlClient) :
  (exists q, Numpy.Q_of_float one_tenth = Some q /\
             (Qabs (q - (1 # 10)) <= 1 # 144115188075855872)%Q) /\
  match stream self with
  | None =>
      forall fuel,
        join (S fuel) self =
        Some (Raises (AttributeError
                "'HowlClient' object has no attribute 'stream'"), [])
  | Some st =>
      forall k,
        (forall j, (j < k)%nat -> is_active st j = true) ->
        join k self = None /\
        (is_active st k = false ->
         forall fuel, (k < fuel)%nat ->
           join fuel self =
           Some (Returns tt,
                 List.concat (repeat [call_is_active; call_sleep one_tenth] k)
                 ++ [call_is_active]))
  end.
Proof.
  split.
  - eexists. split; [ vm_compute; reflexivity | vm_compute; discriminate ].
  - destruct (stream self) as [st | ] eqn:Hs.
    + intros k Hact. split.
      * exact (join_loop_waits st self k Hs 0%nat Hact).
      * intros Hstop fuel Hfuel.
        exact (join_loop_returns st self k Hs 0%nat fuel Hact Hstop Hfuel).
    + intros fuel. unfold join. cbn [join_loop]. rewrite Hs. reflexivity.
Qed.

End Client.

Arguments new_client {Engine Listener} engine0 context device0 chunk_size0 audio.
Arguments fresh_client {Engine Listener} engine0 context device0 chunk_size0 audio ls.
Arguments result {Engine Listener A} r.
Arguments calls {Engine Listener A} r.
Arguments after {Engine Listener A} r.
Arguments emits {Engine Listener A} r.
Arguments emitted {Listener} tr.
Arguments lis_calls {Listener} tr.
Arguments _audio_buf {Engine Listener} h.
Arguments last_data {Engine Listener} h.
Arguments listeners {Engine Listener} h.
Arguments engine {Engine Listener} h.
Arguments ctx {Engine Listener} h.
Arguments _audio_buf_len {Engine Listener} h.
Arguments _audio_float_size {Engine Listener} h.
Arguments fills {Engine Listener} a self.
Arguments start {Engine Listener} _.
Arguments _normalize_audio {Engine Listener} audio_data _.
Arguments call_open {Listener} cfg.
Arguments call_lis {Listener} lis arg.
Arguments set_audio_buf {Engine Listener} v s.
Arguments retired {Engine Listener} a self.
Arguments appended {Engine Listener} a self.
Arguments infer_calls {Listener} tr.
Arguments log_calls {Listener} tr.
Arguments info_calls {Listener} tr.
Arguments stream {Engine Listener} h.
Arguments device {Engine Listener} h.
Arguments call_normalize_audio {Listener} audio_data.
Arguments call_infer {Listener} inp.
Arguments call_logging_info {Listener} msg.

(** ** Detections while INFO logging is enabled *)

(** C6, where the code departs from it: line 78 gives [logging.info] the
    keyword [end], which belongs to [print].  With INFO logging enabled,
    every run that emits a window on which [infer] answers true, with a
    vocabulary that knows the sequence, ends in the [TypeError] of the log
    call: the callback made three calls (normaliser, engine, log), the
    loop of lines 80-81 is not reached and no registered listener is
    invoked, however many there are. *)
Theorem info_logging_skips_listeners
    (Engine : Type) (engine_infer : Engine -> Tensor -> outcome bool * Engine)
    (engine_sequence : Engine -> list Z)
    (Listener : Type) (call_listener : Listener -> list Z -> outcome unit)
    (str_title : string -> string)
    (self : HowlClient Engine Listener) (in_data : bytes)
    (eng eng' : Engine) (arr : list spec_float) (c : InferenceContext)
    (words : list string) :
  fills in_data self = true ->
  normalize (_audio_float_size self) (bytes_join (_audio_buf self ++ [in_data]))
    = Returns arr ->
  engine self = Some eng ->
  engine_infer eng (to_tensor arr (device self)) = (Returns true, eng') ->
  ctx self = Some c ->
  Forall2 (fun x w => vocab c x = Some w) (engine_sequence eng') words ->
  let r := _on_audio Engine engine_infer engine_sequence Listener call_listener
                     str_title (Logging.info true) in_data self in
  result r = Raises (OtherError "TypeError") /\
  calls r =
    [call_normalize_audio (bytes_join (_audio_buf self ++ [in_data]));
     call_infer (to_tensor arr (device self));
     call_logging_info
       (str_title (String.concat " " words) ++ " detected")%string] /\
  lis_calls (calls r) = [] /\
  listeners (after r) = listeners self.
Proof.
  intros F Hnorm Heng Hinf Hc Hw r. subst r.
  rewrite (on_audio_log_raises_run
             Engine engine_infer engine_sequence Listener call_listener
             str_title (Logging.info true) self in_data eng eng' arr c words
             (OtherError "TypeError") F Hnorm Heng Hinf Hc Hw eq_refl).
  repeat split.
Qed.

(** ** The methods on the stub collaborators *)

Module Demo.

Abbreviation on_audio :=
  (_on_audio Stub.Engine Stub.infer Stub.sequence Stub.Listener Stub.call
             Stub.title Stub.logging_info).
Abbreviation feed :=
  (feed Stub.Engine Stub.infer Stub.sequence Stub.Listener Stub.call
        Stub.title Stub.logging_info).
Abbreviation pushed :=
  (pushed Stub.Engine Stub.infer Stub.sequence Stub.Listener Stub.call
          Stub.title Stub.logging_info).

(** A configured client whose engine answers [answer], with listeners 1, 2
    and 3 registered, on a platform with devices hw, pulse and default. *)
Abbreviation client answer :=
  (@fresh_client Stub.Engine Stub.Listener (Some answer) (Some Stub.context)
     cpu 500 (Stub.audio ["hw"; "pulse"; "default"]%string) [1; 2; 3]%nat).

End Demo.

(** C1, as stated, fails: of 17 pushes the 16th emits a window and the 17th
    does not, so it is not the case that every push from the 16th on emits. *)
Lemma push_17_emits_no_window :
  let runs := Demo.feed (repeat Stub.silence 17) (Demo.client (Returns false)) in
  List.length runs = 17%nat /\
  option_map emits (nth_error runs 15) = Some true /\
  option_map emits (nth_error runs 16) = Some false /\
  ~ (forall k, (16 <= k <= 17)%nat ->
               option_map emits (nth_error runs (k - 1)) = Some true).
Proof.
  cbv zeta. split; [ reflexivity | ]. split; [ reflexivity | ].
  split; [ reflexivity | ].
  intros H. specialize (H 17%nat (conj (Nat.le_succ_diag_r 16) (Nat.le_refl 17))).
  vm_compute in H. discriminate H.
Qed.

(** C2, as stated, fails: after 16 pushes the buffer holds 14 frames, which
    is neither 15 nor 16. *)
Lemma buffer_holds_14_after_16_pushes :
  let self := Demo.pushed (repeat Stub.silence 16) (Demo.client (Returns false)) in
  List.length (_audio_buf self) = 14%nat /\
  ~ (List.length (_audio_buf self) = 15%nat \/
     List.length (_audio_buf self) = 16%nat).
Proof.
  cbv zeta. split; [ reflexivity | ].
  intros [H | H]; vm_compute in H; discriminate H.
Qed.

(** C5 at work: the 16th push of a run of 15 silent frames followed by a
    blip emits a window of 64 bytes, the 16 frames in push order: the blip
    is its last four bytes. *)
Lemma window_is_current_buffer_witness :
  let self := Demo.pushed (repeat Stub.silence 15) (Demo.client (Returns false)) in
  let w := List.concat (repeat Stub.silence 15 ++ [Stub.blip]) in
  emitted (calls (Demo.on_audio Stub.blip self)) = Some w /\
  w = List.concat (_audio_buf self ++ [Stub.blip]) /\
  firstn 4 (skipn 60 w) = Stub.blip /\
  List.length w = 64%nat /\
  List.length (_audio_buf self ++ [Stub.blip]) = 16%nat.
Proof.
  cbv zeta.
  assert (H : emitted (calls (Demo.on_audio Stub.blip
                (Demo.pushed (repeat Stub.silence 15) (Demo.client (Returns false)))))
              = Some (List.concat (repeat Stub.silence 15 ++ [Stub.blip])))
    by (vm_compute; reflexivity).
  split; [ exact H | ].
  destruct (window_is_current_buffer _ _ _ _ _ _ _ _ _ _ _ _ _ _ _ _ H)
    as (H1 & H2 & H3 & _ & H5).
  split; [ exact H1 | ].
  split; [ exact (H2 15%nat Stub.blip eq_refl) | ].
  split; [ exact H3 | exact H5 ].
Defined.

(** C4 at work: pushes 16 and 18 emit, push 17 does not, and the second
    window is the first one without its two oldest frames (its first
    eight bytes), followed by the frames of pushes 17 and 18. *)
Lemma consecutive_windows_share_14_witness :
  let self := Demo.pushed (repeat Stub.silence 15) (Demo.client (Returns false)) in
  let r1 := Demo.on_audio Stub.blip self in
  let r2 := Demo.on_audio Stub.silence (after r1) in
  let r3 := Demo.on_audio Stub.blip (after r2) in
  let held := _audio_buf self ++ [Stub.blip] in
  let w1 := List.concat (repeat Stub.silence 15 ++ [Stub.blip]) in
  emitted (calls r1) = Some w1 /\
  _audio_buf (after r1) = skipn 2 held /\
  emitted (calls r2) = None /\
  emitted (calls r3) =
    Some (List.concat (skipn 2 held ++ [Stub.silence; Stub.blip])) /\
  List.concat (skipn 2 held ++ [Stub.silence; Stub.blip]) =
    skipn 8 w1 ++ Stub.silence ++ Stub.blip /\
  firstn 14 (skipn 2 held ++ [Stub.silence; Stub.blip]) = skipn 2 held.
Proof.
  cbv zeta.
  assert (H : emitted (calls (Demo.on_audio Stub.blip
                (Demo.pushed (repeat Stub.silence 15) (Demo.client (Returns false)))))
              = Some (List.concat (repeat Stub.silence 15 ++ [Stub.blip])))
    by (vm_compute; reflexivity).
  split; [ exact H | ].
  destruct (consecutive_windows_share_14 _ _ _ _ _ _ _ _ _ _ _ _ _ _
              Stub.blip Stub.silence Stub.blip _ H)
    as (_ & _ & H3 & H4 & H5 & H6 & _).
  split; [ exact H3 | ]. split; [ exact H4 | ]. split; [ exact H5 | ].
  split; [ vm_compute; reflexivity | exact H6 ].
Defined.

(** C10 at work: the 16th push, on which the engine detects and the three
    listeners are notified, returns the frame and [paContinue]. *)
Lemma on_audio_returns_continue_witness :
  let self := Demo.pushed (repeat Stub.silence 15) (Demo.client (Returns true)) in
  exists v,
    result (Demo.on_audio Stub.blip self) = Returns v /\
    v = (Stub.blip, paContinue).
Proof.
  cbv zeta. eexists. split.
  - vm_compute. reflexivity.
  - refine (on_audio_returns_continue
              Stub.Engine Stub.infer Stub.sequence Stub.Listener Stub.call
              Stub.title Stub.logging_info
              (Demo.pushed (repeat Stub.silence 15) (Demo.client (Returns true)))
              Stub.blip _ _).
    vm_compute. reflexivity.
Defined.

(** C9 at work: an engine that raises on the 16th frame leaves 14 frames in
    the buffer. *)
Lemma infer_failure_keeps_retirement_witness :
  let failing := Raises (OtherError "RuntimeError") in
  let self := Demo.pushed (repeat Stub.silence 15) (Demo.client failing) in
  let r := Demo.on_audio Stub.blip self in
  (_audio_buf_len self = 16 /\ fills Stub.blip self = true /\
   engine self = Some failing) /\
  result r = Raises (OtherError "RuntimeError") /\
  _audio_buf (after r) = skipn 2 (_audio_buf self ++ [Stub.blip]) /\
  last_data (after r) = last_frame Stub.blip /\
  List.length (_audio_buf (after r)) = 14%nat /\
  _audio_buf (after r) <> _audio_buf self.
Proof.
  cbv zeta. split; [ repeat split | ].
  edestruct (infer_failure_keeps_retirement
               Stub.Engine Stub.infer Stub.sequence Stub.Listener Stub.call
               Stub.title Stub.logging_info
               (Demo.pushed (repeat Stub.silence 15)
                  (Demo.client (Raises (OtherError "RuntimeError"))))
               Stub.blip
               (Raises (OtherError "RuntimeError"))
               (Raises (OtherError "RuntimeError")))
    as (H1 & _ & H3 & H4 & H5 & _ & H7).
  - reflexivity.
  - reflexivity.
  - vm_compute. reflexivity.
  - reflexivity.
  - reflexivity.
  - repeat split; assumption.
Defined.

(** C6 at the failing input: INFO logging is enabled, the engine detects on
    the 16th frame and the listeners 1, 2 and 3 are registered.  The run
    raises [TypeError] at the log call and calls none of them. *)
Lemma info_logging_skips_listeners_witness :
  let on_audio := _on_audio Stub.Engine Stub.infer Stub.sequence Stub.Listener
                            Stub.call Stub.ascii_title (Logging.info true) in
  let self := pushed Stub.Engine Stub.infer Stub.sequence Stub.Listener
                     Stub.call Stub.ascii_title (Logging.info true)
                     (repeat Stub.silence 15) (Demo.client (Returns true)) in
  let r := on_audio Stub.blip self in
  (fills Stub.blip self = true /\ engine self = Some (Returns true) /\
   listeners self = [1; 2; 3]%nat) /\
  result r = Raises (OtherError "TypeError") /\
  log_calls (calls r) = ["Hey Fire Fox detected"%string] /\
  lis_calls (calls r) = [].
Proof.
  cbv zeta. split; [ repeat split | ].
  destruct (normalize 32767
              (bytes_join (repeat Stub.silence 15 ++ [Stub.blip]))) as [arr | e] eqn:N;
    [ | vm_compute in N; discriminate N ].
  destruct (info_logging_skips_listeners
              Stub.Engine Stub.infer Stub.sequence Stub.Listener Stub.call
              Stub.ascii_title
              (pushed Stub.Engine Stub.infer Stub.sequence Stub.Listener
                      Stub.call Stub.ascii_title (Logging.info true)
                      (repeat Stub.silence 15) (Demo.client (Returns true)))
              Stub.blip (Returns true) (Returns true) arr Stub.context
              ["hey"; "fire"; "fox"]%string)
    as (H1 & H2 & H3 & _).
  - reflexivity.
  - exact N.
  - reflexivity.
  - reflexivity.
  - reflexivity.
  - repeat constructor.
  - split; [ exact H1 | ]. split; [ | exact H3 ].
    rewrite H2. reflexivity.
Defined.

(** X21 at work: on a detection the listeners 1, 2, 3 are called in that
    order with the engine's sequence; without detection none is called. *)
Lemma detection_notifies_listeners_witness :
  let self answer := Demo.pushed (repeat Stub.silence 15) (Demo.client answer) in
  (fills Stub.blip (self (Returns true)) = true /\
   returned (result (Demo.on_audio Stub.blip (self (Returns true)))) = true /\
   returned (result (Demo.on_audio Stub.blip (self (Returns false)))) = true) /\
  lis_calls (calls (Demo.on_audio Stub.blip (self (Returns true))))
    = [(1%nat, [3; 1; 2]); (2%nat, [3; 1; 2]); (3%nat, [3; 1; 2])] /\
  lis_calls (calls (Demo.on_audio Stub.blip (self (Returns false)))) = [].
Proof.
  cbv beta zeta. split; [ repeat split | split ].
  - refine (detection_notifies_listeners
              Stub.Engine Stub.infer Stub.sequence Stub.Listener Stub.call
              Stub.title Stub.logging_info
              (Demo.pushed (repeat Stub.silence 15) (Demo.client (Returns true)))
              Stub.blip (Returns true) (Returns true) _ true _ _ _ _ _);
      [ reflexivity | vm_compute; reflexivity | reflexivity | reflexivity
      | reflexivity ].
  - refine (detection_notifies_listeners
              Stub.Engine Stub.infer Stub.sequence Stub.Listener Stub.call
              Stub.title Stub.logging_info
              (Demo.pushed (repeat Stub.silence 15) (Demo.client (Returns false)))
              Stub.blip (Returns false) (Returns false) _ false _ _ _ _ _);
      [ reflexivity | vm_compute; reflexivity | reflexivity | reflexivity
      | reflexivity ].
Defined.

(** C8 at work: with devices hw, pulse, default the stream is opened on
    device 1. *)
Lemma start_selects_pulse_or_zero_witness :
  let self := Demo.client (Returns false) in
  (engine self = Some (Returns false) /\ ctx self = Some Stub.context) /\
  exists chosen_idx,
    In (call_open {| format := paInt16;
                     channels := 1;
                     rate := 16000;
                     input := true;
                     input_device_index := chosen_idx;
                     frames_per_buffer := 500;
                     stream_callback := self_on_audio |})
       (calls (start self)) /\
    (chosen_idx = 1%nat \/ chosen_idx = 0%nat).
Proof.
  cbv zeta. split; [ split; reflexivity | ].
  destruct (start_selects_pulse_or_zero Stub.Engine Stub.Listener
              (Demo.client (Returns false)) (Returns false) Stub.context
              eq_refl eq_refl) as (i & Hsel & Hin & _).
  exists i. split; [ exact Hin | ].
  destruct Hsel as [[(d & Hd & Hname) Hfirst] | [H0 _]]; [ | right; exact H0 ].
  left.
  destruct i as [ | [ | [ | i]]]; cbn in Hd.
  - injection Hd as <-. discriminate Hname.
  - reflexivity.
  - injection Hd as <-. discriminate Hname.
  - destruct i; discriminate Hd.
Defined.


(** C7 at work: without an engine [start] raises and calls nothing; the
    configured client reaches the call that opens the stream. *)
Lemma start_checks_configuration_witness :
  let bare := @fresh_client Stub.Engine Stub.Listener None (Some Stub.context)
                cpu 500 (Stub.audio ["pulse"%string]) [] in
  ((exists msg, result (start bare) = Raises (AttributeError msg)) /\
   calls (start bare) = [] /\ after (start bare) = bare) /\
  exists cfg rest,
    calls (start (Demo.client (Returns false))) = call_get_device_count _ :: rest /\
    In (call_open cfg) rest.
Proof.
  cbv zeta. split.
  - exact (start_checks_configuration Stub.Engine Stub.Listener
             (@fresh_client Stub.Engine Stub.Listener None (Some Stub.context)
                cpu 500 (Stub.audio ["pulse"%string]) [])).
  - exact (start_checks_configuration Stub.Engine Stub.Listener
             (Demo.client (Returns false))).
Defined.

(** A listener that raises ends the run: the listeners registered after it
    are not called.  This is why the statement on notification is about runs
    that return. *)
Example raising_listener_aborts_the_rest :
  let self := Demo.pushed (repeat Stub.silence 15)
                (@fresh_client Stub.Engine Stub.Listener (Some (Returns true))
                   (Some Stub.context) cpu 500 (Stub.audio []) [1; 7; 3]%nat) in
  result (Demo.on_audio Stub.blip self) = Raises (OtherError "RuntimeError") /\
  lis_calls (calls (Demo.on_audio Stub.blip self))
    = [(1%nat, [3; 1; 2]); (7%nat, [3; 1; 2])].
Proof. cbv zeta. split; reflexivity. Qed.

(** ** The further properties at work *)

(** X3 at work: a buffer that holds 16 frames before a push. *)
Lemma overfull_buffer_never_emits_witness :
  let self := set_audio_buf (repeat Stub.silence 16) (Demo.client (Returns true)) in
  let frames := [Stub.blip; Stub.silence; Stub.blip] in
  _audio_buf_len self <= Z.of_nat (List.length (_audio_buf self)) /\
  map emits (Demo.feed frames self) = [false; false; false] /\
  List.length (_audio_buf (Demo.pushed frames self)) = 19%nat.
Proof.
  cbv zeta.
  assert (H : _audio_buf_len (set_audio_buf (repeat Stub.silence 16)
                                (Demo.client (Returns true)))
              <= Z.of_nat (List.length (_audio_buf
                   (set_audio_buf (repeat Stub.silence 16)
                      (Demo.client (Returns true))))))
    by (vm_compute; discriminate).
  split; [ exact H | ].
  destruct (overfull_buffer_never_emits
              Stub.Engine Stub.infer Stub.sequence Stub.Listener Stub.call
              Stub.title Stub.logging_info _
              [Stub.blip; Stub.silence; Stub.blip] H) as (H1 & _ & _ & H4).
  split; [ exact H1 | ]. rewrite H4. reflexivity.
Defined.

(** X4 at work: forty pushes into a new client. *)
Lemma buffer_stays_below_depth_witness :
  let self := Demo.client (Returns true) in
  Z.of_nat (List.length (_audio_buf self)) < _audio_buf_len self /\
  Z.of_nat (List.length (_audio_buf (Demo.pushed (repeat Stub.blip 40) self)))
    < _audio_buf_len self.
Proof.
  cbv zeta.
  assert (H : Z.of_nat (List.length (_audio_buf (Demo.client (Returns true))))
              < _audio_buf_len (Demo.client (Returns true))) by reflexivity.
  split; [ exact H | ].
  exact (buffer_stays_below_depth
           Stub.Engine Stub.infer Stub.sequence Stub.Listener Stub.call
           Stub.title Stub.logging_info _ (repeat Stub.blip 40) H).
Defined.

(** X5 at work: the 16th push on a client that has no engine. *)
Lemma callback_without_engine_witness :
  let self := Demo.pushed (repeat Stub.silence 15)
                (@fresh_client Stub.Engine Stub.Listener None (Some Stub.context)
                   cpu 500 (Stub.audio []) [1]%nat) in
  engine self = None /\
  result (Demo.on_audio Stub.blip self)
    = Raises (AttributeError "'NoneType' object has no attribute 'infer'") /\
  List.length (_audio_buf (after (Demo.on_audio Stub.blip self))) = 14%nat.
Proof.
  cbv zeta.
  assert (H : engine (Demo.pushed (repeat Stub.silence 15)
                (@fresh_client Stub.Engine Stub.Listener None (Some Stub.context)
                   cpu 500 (Stub.audio []) [1]%nat)) = None) by reflexivity.
  split; [ exact H | ].
  pose proof (callback_without_engine
                Stub.Engine Stub.infer Stub.sequence Stub.Listener Stub.call
                Stub.title Stub.logging_info _ Stub.blip H) as T.
  vm_compute in T. destruct T as (T1 & _ & T3).
  split; vm_compute; [ exact T1 | reflexivity ].
Defined.

(** X6 at work: a 16th frame of three bytes. *)
Lemma odd_window_raises_witness :
  let self := Demo.pushed (repeat Stub.silence 15) (Demo.client (Returns true)) in
  let r := Demo.on_audio [x01; x00; x02] self in
  (fills [x01; x00; x02] self = true /\
   Nat.odd (List.length (bytes_join (_audio_buf self ++ [[x01; x00; x02]]))) = true) /\
  result r = Raises (ValueError "buffer size must be a multiple of element size") /\
  infer_calls (calls r) = [] /\
  List.length (_audio_buf (after r)) = 14%nat.
Proof.
  cbv zeta. split; [ split; reflexivity | ].
  destruct (odd_window_raises
              Stub.Engine Stub.infer Stub.sequence Stub.Listener Stub.call
              Stub.title Stub.logging_info
              (Demo.pushed (repeat Stub.silence 15) (Demo.client (Returns true)))
              [x01; x00; x02] eq_refl eq_refl) as (T1 & T2 & T3).
  split; [ exact T1 | ]. rewrite T2, T3. split; reflexivity.
Defined.

(** X7 at work: frames of two samples give windows of 64 bytes and signals
    of 32 samples. *)
Lemma window_holds_16_chunks_witness :
  let w := bytes_join (repeat Stub.silence 15 ++ [Stub.blip]) in
  emitted (calls (Demo.on_audio Stub.blip
                    (Demo.pushed (repeat Stub.silence 15)
                                 (Demo.client (Returns false))))) = Some w /\
  List.length w = 64%nat /\
  exists arr,
    normalize 32767 w = Returns arr /\
    List.length arr = 32%nat /\
    List.length (t_data (to_tensor arr cpu)) = 32%nat.
Proof.
  cbv zeta.
  assert (H : emitted (calls (Demo.on_audio Stub.blip
                (Demo.pushed (repeat Stub.silence 15) (Demo.client (Returns false)))))
              = Some (bytes_join (repeat Stub.silence 15 ++ [Stub.blip])))
    by (vm_compute; reflexivity).
  split; [ exact H | ].
  refine (window_holds_16_chunks
            Stub.Engine Stub.infer Stub.sequence Stub.Listener Stub.call
            Stub.title Stub.logging_info _ _ _ _ _ _
            (repeat Stub.silence 15) Stub.blip _ 2 _ _ H).
  - repeat constructor.
  - reflexivity.
Defined.

(** X8 at work: the calls of a detecting run with listeners 1, 2, 3. *)
Lemma detecting_run_call_order_witness :
  let self := Demo.pushed (repeat Stub.silence 15) (Demo.client (Returns true)) in
  let r := Demo.on_audio Stub.blip self in
  result r = Returns (Stub.blip, paContinue) /\
  log_calls (calls r) = ["hey fire fox detected"%string] /\
  lis_calls (calls r) = [(1%nat, [3; 1; 2]); (2%nat, [3; 1; 2]); (3%nat, [3; 1; 2])] /\
  List.length (infer_calls (calls r)) = 1%nat.
Proof.
  cbv zeta.
  destruct (normalize 32767
              (bytes_join (repeat Stub.silence 15 ++ [Stub.blip]))) as [arr | e] eqn:N;
    [ | vm_compute in N; discriminate N ].
  destruct (detecting_run_call_order
              Stub.Engine Stub.infer Stub.sequence Stub.Listener Stub.call
              Stub.title Stub.logging_info
              (Demo.pushed (repeat Stub.silence 15) (Demo.client (Returns true)))
              Stub.blip (Returns true) (Returns true) arr Stub.context
              ["hey"; "fire"; "fox"]%string eq_refl N eq_refl eq_refl eq_refl)
    as (T1 & T2 & _).
  - repeat constructor.
  - reflexivity.
  - intros lis Hin. vm_compute in Hin.
    destruct Hin as [<- | [<- | [<- | []]]]; reflexivity.
  - split; [ exact T1 | ]. rewrite T2. repeat split.
Defined.

(** X9 at work: listener 1 registered, then 2 and 1 again. *)
Lemma registration_appends_and_notifies_witness :
  let self := Demo.pushed (repeat Stub.silence 15)
                (@fresh_client Stub.Engine Stub.Listener (Some (Returns true))
                   (Some Stub.context) cpu 500 (Stub.audio []) [1]%nat) in
  listeners (registered Stub.Engine Stub.Listener [2; 1]%nat self) = [1; 2; 1]%nat /\
  lis_calls (calls (Demo.on_audio Stub.blip
                      (registered Stub.Engine Stub.Listener [2; 1]%nat self)))
    = [(1%nat, [3; 1; 2]); (2%nat, [3; 1; 2]); (1%nat, [3; 1; 2])].
Proof.
  cbv zeta.
  destruct (normalize 32767
              (bytes_join (repeat Stub.silence 15 ++ [Stub.blip]))) as [arr | e] eqn:N;
    [ | vm_compute in N; discriminate N ].
  destruct (registration_appends_and_notifies
              Stub.Engine Stub.infer Stub.sequence Stub.Listener Stub.call
              Stub.title Stub.logging_info
              (Demo.pushed (repeat Stub.silence 15)
                 (@fresh_client Stub.Engine Stub.Listener (Some (Returns true))
                    (Some Stub.context) cpu 500 (Stub.audio []) [1]%nat))
              [2; 1]%nat Stub.blip (Returns true) (Returns true) arr Stub.context
              ["hey"; "fire"; "fox"]%string eq_refl N eq_refl eq_refl eq_refl)
    as (T1 & T2).
  - repeat constructor.
  - reflexivity.
  - intros lis Hin. vm_compute in Hin.
    destruct Hin as [<- | [<- | [<- | []]]]; reflexivity.
  - rewrite T1. split; [ reflexivity | exact T2 ].
Defined.

(** X11 at work: of 18 pushes the 16th and the 18th hand one tensor each
    to the engine, of 32 samples. *)
Lemma engine_sees_every_window_in_order_witness :
  map (map (fun t => List.length (t_data t)))
      (map (fun r => infer_calls (calls r))
           (Demo.feed (repeat Stub.blip 18) (Demo.client (Returns true))))
  = repeat [] 15 ++ [[32%nat]; []; [32%nat]].
Proof.
  etransitivity.
  - apply (f_equal (map (map (fun t : Tensor => List.length (t_data t))))).
    exact (engine_sees_every_window_in_order
             Stub.Engine Stub.infer Stub.sequence Stub.Listener Stub.call
             Stub.title Stub.logging_info (Returns true) (Some Stub.context)
             cpu 500 (Stub.audio ["hw"; "pulse"; "default"]%string)
             [1; 2; 3]%nat (repeat Stub.blip 18)).
  - vm_compute. reflexivity.
Defined.

(** X12 at work: with devices hw, pulse, default only 0 and 1 are queried. *)
Lemma start_enumeration_stops_at_pulse_witness :
  let self := Demo.client (Returns false) in
  (engine self = Some (Returns false) /\ ctx self = Some Stub.context) /\
  info_calls (calls (start self)) = [0; 1]%nat.
Proof.
  cbv zeta. split; [ split; reflexivity | ].
  destruct (start_enumeration_stops_at_pulse Stub.Engine Stub.Listener
              (Demo.client (Returns false)) (Returns false) Stub.context
              eq_refl eq_refl) as [[(i & d & Hd & Hname & _ & Hq) | [Hnone _]] _].
  - rewrite Hq.
    destruct i as [ | [ | [ | i]]]; cbn in Hd.
    + injection Hd as <-. discriminate Hname.
    + reflexivity.
    + injection Hd as <-. discriminate Hname.
    + destruct i; discriminate Hd.
  - exfalso. apply (Hnone {| name := "pulse" |}); [ | reflexivity ].
    right. left. reflexivity.
Defined.

(** X13 at work: the stream opens on device 1, so [start] returns and the
    client holds the started stream. *)
Lemma start_follows_open_witness :
  let self := Demo.client (Returns false) in
  let cfg := {| format := paInt16;
                channels := 1;
                rate := 16000;
                input := true;
                input_device_index := 1;
                frames_per_buffer := 500;
                stream_callback := self_on_audio |} in
  In (call_open cfg) (calls (start self)) /\
  result (start self) = Returns tt /\
  stream (after (start self)) = Some {| opened_with := cfg; started := true |}.
Proof.
  cbv zeta.
  assert (H : In (call_open {| format := paInt16;
                               channels := 1;
                               rate := 16000;
                               input := true;
                               input_device_index := 1;
                               frames_per_buffer := 500;
                               stream_callback := self_on_audio |})
                 (calls (start (Demo.client (Returns false)))))
    by (right; right; right; left; reflexivity).
  split; [ exact H | ].
  destruct (start_follows_open Stub.Engine Stub.Listener _ _ H) as (T1 & T2 & _).
  split; [ exact T1 | ]. rewrite T2. reflexivity.
Defined.

(** X15 at work: an unconfigured client, on which [start] would raise,
    is configured by [from_pretrained] and [start] then opens the stream; an
    unknown model name leaves it unconfigured. *)
Lemma from_pretrained_all_or_nothing_witness :
  let bare := @fresh_client Stub.Engine Stub.Listener None None cpu 500
                (Stub.audio ["pulse"%string]) [] in
  let load := from_pretrained Stub.Engine Stub.Listener Stub.hub_load
                Stub.engine_to in
  calls (start bare) = [] /\
  (exists cfg rest,
     calls (start (after (load "hey_fire_fox"%string bare))) =
       call_get_device_count _ :: rest /\
     In (call_open cfg) rest) /\
  load "unknown"%string bare = (Raises (OtherError "RuntimeError"), [], bare).
Proof.
  cbv zeta. split; [ reflexivity | ]. split.
  - pose proof (from_pretrained_all_or_nothing Stub.Engine Stub.Listener
                  Stub.hub_load Stub.engine_to
                  (@fresh_client Stub.Engine Stub.Listener None None cpu 500
                     (Stub.audio ["pulse"%string]) [])
                  "hey_fire_fox"%string) as T.
    destruct T as [_ T]. exact T.
  - exact (from_pretrained_all_or_nothing Stub.Engine Stub.Listener
             Stub.hub_load Stub.engine_to
             (@fresh_client Stub.Engine Stub.Listener None None cpu 500
                (Stub.audio ["pulse"%string]) [])
             "unknown"%string).
Defined.

(** X16 at work: a stream that is active for three polls is slept on three
    times; three iterations are not enough to see [join] return; a client
    that was never started has no stream to wait for. *)
Lemma join_returns_at_first_inactive_poll_witness :
  let started := after (start (Demo.client (Returns false))) in
  join Stub.Engine Stub.Listener Stub.is_active 10 started =
    Some (Returns tt,
          [call_is_active; call_sleep one_tenth;
           call_is_active; call_sleep one_tenth;
           call_is_active; call_sleep one_tenth;
           call_is_active]) /\
  join Stub.Engine Stub.Listener Stub.is_active 3 started = None /\
  join Stub.Engine Stub.Listener Stub.is_active 10 (Demo.client (Returns false)) =
    Some (Raises (AttributeError "'HowlClient' object has no attribute 'stream'"),
          []).
Proof.
  cbv zeta.
  destruct (join_returns_at_first_inactive_poll Stub.Engine Stub.Listener
              Stub.is_active (after (start (Demo.client (Returns false)))))
    as [_ T].
  destruct (join_returns_at_first_inactive_poll Stub.Engine Stub.Listener
              Stub.is_active (Demo.client (Returns false)))
    as [_ U].
  assert (Hact : forall j, (j < 3)%nat ->
            Stub.is_active {| opened_with :=
                                {| format := paInt16;
                                   channels := 1;
                                   rate := 16000;
                                   input := true;
                                   input_device_index := 1;
                                   frames_per_buffer := 500;
                                   stream_callback := self_on_audio |};
                              started := true |} j = true).
  { intros j Hj. unfold Stub.is_active. apply Nat.ltb_lt. exact Hj. }
  destruct (T 3%nat Hact) as [T1 T2].
  split; [ exact (T2 eq_refl 10%nat (proj1 (Nat.leb_le 4 10) eq_refl)) | ].
  split; [ exact T1 | exact (U 9%nat) ].
Defined.

(** * The metrics of the ROC script *)

Section RocFacts.

Import Roc.

Variable py_str : spec_float -> string.

Lemma metrics_row_returns (odl otl : option spec_float) (wb : Workbook)
    (t : spec_float) (row : Row) :
  metrics_row py_str odl otl wb t = Returns row ->
  exists sheet dl tl,
    odl = Some dl /\ otl = Some tl /\
    wb (py_str t) = Some sheet /\ row_of dl tl sheet row.
Proof.
  unfold metrics_row, and_then, getitem, local, truediv.
  destruct (wb (py_str t)) as [sheet | ]; [ | discriminate ].
  destruct (sheet "C3"%string) as [tp | ] eqn:C3; [ | discriminate ].
  destruct (sheet "F3"%string) as [fn | ] eqn:F3; [ | discriminate ].
  destruct (sheet "J3"%string) as [tn | ] eqn:J3; [ | discriminate ].
  destruct (sheet "K3"%string) as [fp | ] eqn:K3; [ | discriminate ].
  destruct odl as [dl | ]; [ | discriminate ].
  destruct (is_zero (Numpy.float64_of_Z 3600)); [ discriminate | ].
  destruct (is_zero (SFdiv _ _ dl _)); [ discriminate | ].
  destruct (is_zero (add fn tp)) eqn:Z1; [ discriminate | ].
  destruct (sheet "O3"%string) as [tp' | ] eqn:O3; [ | discriminate ].
  destruct (sheet "R3"%string) as [fn' | ] eqn:R3; [ | discriminate ].
  destruct (sheet "V3"%string) as [tn' | ] eqn:V3; [ | discriminate ].
  destruct (sheet "W3"%string) as [fp' | ] eqn:W3; [ | discriminate ].
  destruct otl as [tl | ]; [ | discriminate ].
  destruct (is_zero (SFdiv _ _ tl _)); [ discriminate | ].
  destruct (is_zero (add fn' tp')) eqn:Z2; [ discriminate | ].
  intros [= <-]. exists sheet, dl, tl. repeat split.
  exists tp, fn, tn, fp, tp', fn', tn', fp'. repeat split; assumption.
Qed.

Lemma metrics_loop_returns (odl otl : option spec_float) (wb : Workbook)
    (thresholds : list spec_float) :
  forall a0 b0 c0 d0 a b c d,
    metrics_loop py_str odl otl wb thresholds a0 b0 c0 d0 = Returns (a, b, c, d) ->
    exists rows,
      Forall2 (fun t row => metrics_row py_str odl otl wb t = Returns row)
              thresholds rows /\
      a = a0 ++ map (fun r => fst (fst (fst r))) rows /\
      b = b0 ++ map (fun r => snd (fst (fst r))) rows /\
      c = c0 ++ map (fun r => snd (fst r)) rows /\
      d = d0 ++ map (fun r => snd r) rows.
Proof.
  induction thresholds as [ | t rest IH]; intros a0 b0 c0 d0 a b c d.
  - cbn [metrics_loop]. intros [= <- <- <- <-]. exists [].
    cbn [map]. rewrite !app_nil_r. repeat split. constructor.
  - cbn [metrics_loop]. unfold and_then at 1.
    destruct (metrics_row py_str odl otl wb t) as [[[[far frr] far'] frr'] | e] eqn:R;
      [ | discriminate ].
    intros H. destruct (IH _ _ _ _ _ _ _ _ H) as (rows & HF & -> & -> & -> & ->).
    exists ((far, frr, far', frr') :: rows). cbn [map fst snd].
    rewrite <- !app_assoc. repeat split. constructor; assumption.
Qed.

(** X17: when [get_metrics] returns, every threshold had its sheet in the
    workbook, with eight cells that convert to floats and with nonzero sums
    fn + tp; the four lists have one entry per threshold, in the order of
    the thresholds: the false alarms fp divided by the hours of audio of the
    experiment, and the false rejection rates fn / (fn + tp), for the dev
    and for the test cells. *)
Theorem get_metrics_returns (exp_type : string) (wb : Workbook)
    (thresholds : list spec_float) (rates : Rates) :
  get_metrics py_str exp_type wb thresholds = Returns rates ->
  exists rows,
    rates = unzip rows /\
    List.length rows = List.length thresholds /\
    Forall2 (fun t row =>
               exists sheet dev_len test_len,
                 lengths exp_type = (Some dev_len, Some test_len) /\
                 wb (py_str t) = Some sheet /\
                 row_of dev_len test_len sheet row)
            thresholds rows.
Proof.
  destruct rates as [[[a b] c] d]. unfold get_metrics. intros H.
  destruct (metrics_loop_returns _ _ _ _ _ _ _ _ _ _ _ _ H)
    as (rows & HF & -> & -> & -> & ->).
  exists rows. split; [ reflexivity | ]. split.
  - symmetry. exact (Forall2_length HF).
  - clear H. induction HF as [ | t row ts rows Hrow _ IH]; constructor; [ | exact IH ].
    destruct (metrics_row_returns _ _ _ _ _ Hrow) as (sheet & dl & tl & H1 & H2 & H3 & H4).
    exists sheet, dl, tl. split; [ | split; assumption ].
    destruct (lengths exp_type) as [x y]. cbn [fst snd] in H1, H2.
    rewrite H1, H2. reflexivity.
Qed.

Lemma lengths_unknown (exp_type : string) :
  exp_type <> "hey_ff"%string -> exp_type <> "hey_snips"%string ->
  lengths exp_type = (None, None).
Proof.
  intros H1 H2. unfold lengths.
  destruct (String.eqb_spec exp_type "hey_ff"); [ contradiction | ].
  destruct (String.eqb_spec exp_type "hey_snips"); [ contradiction | ].
  reflexivity.
Qed.

(** X18: with an experiment type other than hey_ff and hey_snips no length
    is assigned, and [get_metrics] returns only for an empty list of
    thresholds (four empty lists).  With a first threshold it raises: the
    error of the sheet lookup or of a cell conversion if one of the first
    four fails, and otherwise an [UnboundLocalError] at the first rate. *)
Theorem get_metrics_unknown_experiment (exp_type : string) (wb : Workbook) :
  exp_type <> "hey_ff"%string -> exp_type <> "hey_snips"%string ->
  get_metrics py_str exp_type wb [] = Returns ([], [], [], []) /\
  forall t rest,
    exists e,
      get_metrics py_str exp_type wb (t :: rest) = Raises e /\
      (forall sheet dev_tp dev_fn dev_tn dev_fp,
         wb (py_str t) = Some sheet ->
         sheet "C3"%string = Returns dev_tp -> sheet "F3"%string = Returns dev_fn ->
         sheet "J3"%string = Returns dev_tn -> sheet "K3"%string = Returns dev_fp ->
         e = OtherError "UnboundLocalError").
Proof.
  intros H1 H2. split; [ reflexivity | ].
  intros t rest. unfold get_metrics.
  rewrite (lengths_unknown _ H1 H2). cbn [fst snd metrics_loop].
  unfold and_then at 1.
  unfold metrics_row, and_then, getitem, local.
  destruct (wb (py_str t)) as [sheet | ] eqn:Hwb;
    [ | eexists; split; [ reflexivity | intros; congruence ] ].
  destruct (sheet "C3"%string) as [tp | ] eqn:C3;
    [ | eexists; split; [ reflexivity | intros; congruence ] ].
  destruct (sheet "F3"%string) as [fn | ] eqn:F3;
    [ | eexists; split; [ reflexivity | intros; congruence ] ].
  destruct (sheet "J3"%string) as [tn | ] eqn:J3;
    [ | eexists; split; [ reflexivity | intros; congruence ] ].
  destruct (sheet "K3"%string) as [fp | ] eqn:K3;
    [ | eexists; split; [ reflexivity | intros; congruence ] ].
  eexists; split; reflexivity.
Qed.

Lemma lengths_known (exp_type : string) :
  exp_type = "hey_ff"%string \/ exp_type = "hey_snips"%string ->
  exists dl tl,
    lengths exp_type = (Some dl, Some tl) /\
    is_zero (SFdiv Numpy.prec64 Numpy.emax64 dl (Numpy.float64_of_Z 3600)) = false /\
    is_zero (SFdiv Numpy.prec64 Numpy.emax64 tl (Numpy.float64_of_Z 3600)) = false.
Proof.
  intros [-> | ->]; do 2 eexists; (split; [ reflexivity | split; reflexivity ]).
Qed.

(** X19: with one of the two known experiment types, a first threshold
    whose sheet has dev cells that convert but whose false negatives and
    true positives add up to zero (no positive example at all, say) makes
    [get_metrics] raise a [ZeroDivisionError], whatever the other
    thresholds. *)
Theorem get_metrics_zero_positives (exp_type : string) (wb : Workbook)
    (t : spec_float) (rest : list spec_float) (sheet : Sheet)
    (dev_tp dev_fn dev_tn dev_fp : spec_float) :
  exp_type = "hey_ff"%string \/ exp_type = "hey_snips"%string ->
  wb (py_str t) = Some sheet ->
  sheet "C3"%string = Returns dev_tp -> sheet "F3"%string = Returns dev_fn ->
  sheet "J3"%string = Returns dev_tn -> sheet "K3"%string = Returns dev_fp ->
  is_zero (add dev_fn dev_tp) = true ->
  get_metrics py_str exp_type wb (t :: rest) = Raises (OtherError "ZeroDivisionError").
Proof.
  intros Hexp Hwb C3 F3 J3 K3 Hz.
  destruct (lengths_known _ Hexp) as (dl & tl & HL & Hd & _).
  unfold get_metrics. rewrite HL. cbn [fst snd metrics_loop].
  unfold and_then at 1.
  unfold metrics_row, and_then, getitem, local, truediv.
  rewrite Hwb, C3, F3, J3, K3.
  change (is_zero (Numpy.float64_of_Z 3600)) with false. cbv iota.
  rewrite Hd, Hz. reflexivity.
Qed.

Lemma metrics_row_same_but_tn (odl otl : option spec_float) (wb1 wb2 : Workbook)
    (t : spec_float) :
  same_but_tn_wb wb1 wb2 ->
  metrics_row py_str odl otl wb1 t = metrics_row py_str odl otl wb2 t.
Proof.
  intros H. specialize (H (py_str t)).
  unfold metrics_row, getitem.
  destruct (wb1 (py_str t)) as [s1 | ], (wb2 (py_str t)) as [s2 | ];
    try contradiction; [ | reflexivity ].
  destruct H as (Hsame & (j1 & j2 & J1 & J2) & (v1 & v2 & V1 & V2)).
  cbn [and_then].
  rewrite J1, J2, V1, V2.
  rewrite <- (Hsame "C3"%string), <- (Hsame "F3"%string), <- (Hsame "K3"%string),
          <- (Hsame "O3"%string), <- (Hsame "R3"%string), <- (Hsame "W3"%string)
    by discriminate.
  reflexivity.
Qed.

(** X20: the true negatives (cells J3 and V3) must convert to floats but
    have no influence: two workbooks with the same sheets that differ only
    in the numbers held in these two cells give the same result, whether
    rates or an error. *)
Theorem get_metrics_ignores_true_negatives (exp_type : string)
    (wb1 wb2 : Workbook) (thresholds : list spec_float) :
  same_but_tn_wb wb1 wb2 ->
  get_metrics py_str exp_type wb1 thresholds =
  get_metrics py_str exp_type wb2 thresholds.
Proof.
  intros H. unfold get_metrics.
  generalize (@nil spec_float) at 1 5 as a.
  generalize (@nil spec_float) at 1 4 as b.
  generalize (@nil spec_float) at 1 3 as c.
  generalize (@nil spec_float) as d.
  induction thresholds as [ | t rest IH]; intros d c b a; [ reflexivity | ].
  cbn [metrics_loop]. rewrite (metrics_row_same_but_tn _ _ _ _ t H).
  unfold and_then.
  destruct (metrics_row py_str _ _ wb2 t) as [[[[far frr] far'] frr'] | e];
    [ apply IH | reflexivity ].
Qed.

(** The lengths are the float64 values nearest to the decimal literals of
    the source: each is within half a unit in the last place of its
    literal. *)
Lemma lengths_are_the_literals :
  (exists q, Numpy.Q_of_float hey_ff_dev_len = Some q /\
     (Qabs (q - (10679505062500015 # 1000000000000)) <= 1 # 1099511627776)%Q) /\
  (exists q, Numpy.Q_of_float hey_ff_test_len = Some q /\
     (Qabs (q - (10364291000000001 # 1000000000000)) <= 1 # 1099511627776)%Q) /\
  (exists q, Numpy.Q_of_float hey_snips_dev_len = Some q /\
     (Qabs (q - (460666921250002 # 10000000000)) <= 1 # 274877906944)%Q) /\
  (exists q, Numpy.Q_of_float hey_snips_test_len = Some q /\
     (Qabs (q - (47047301562499844 # 1000000000000)) <= 1 # 274877906944)%Q).
Proof.
  repeat split; eexists;
    (split; [ vm_compute; reflexivity | vm_compute; discriminate ]).
Qed.

End RocFacts.

(** X17 at work: one threshold, 3 true positives, 1 false negative. *)
Lemma get_metrics_returns_witness :
  exists rates,
    Roc.get_metrics Roc.demo_str "hey_ff" (Roc.demo_wb 3 1 5)
                    [Numpy.float64_of_Z 1] = Returns rates /\
    exists rows,
      rates = Roc.unzip rows /\
      List.length rows = 1%nat.
Proof.
  eexists. split; [ vm_compute; reflexivity | ].
  edestruct (get_metrics_returns Roc.demo_str "hey_ff" (Roc.demo_wb 3 1 5)
               [Numpy.float64_of_Z 1]) as (rows & H1 & H2 & _).
  - vm_compute. reflexivity.
  - exists rows. split; assumption.
Defined.

(** X18 at work: a misspelt experiment type. *)
Lemma get_metrics_unknown_experiment_witness :
  Roc.get_metrics Roc.demo_str "hey_snip" (Roc.demo_wb 3 1 5) []
    = Returns ([], [], [], []) /\
  Roc.get_metrics Roc.demo_str "hey_snip" (Roc.demo_wb 3 1 5)
                  [Numpy.float64_of_Z 1]
    = Raises (OtherError "UnboundLocalError").
Proof.
  destruct (get_metrics_unknown_experiment Roc.demo_str "hey_snip"
              (Roc.demo_wb 3 1 5)) as [H1 H2];
    [ discriminate | discriminate | ].
  split; [ exact H1 | ].
  destruct (H2 (Numpy.float64_of_Z 1) []) as (e & He & Hu).
  rewrite He. f_equal.
  exact (Hu (Roc.demo_sheet 3 1 5) _ _ _ _ eq_refl eq_refl eq_refl eq_refl eq_refl).
Defined.

(** X19 at work: a sheet without positive examples. *)
Lemma get_metrics_zero_positives_witness :
  Roc.is_zero (Roc.add (Numpy.float64_of_Z 0) (Numpy.float64_of_Z 0)) = true /\
  Roc.get_metrics Roc.demo_str "hey_snips" (Roc.demo_wb 0 0 5)
                  [Numpy.float64_of_Z 1; Numpy.float64_of_Z 2]
    = Raises (OtherError "ZeroDivisionError").
Proof.
  split; [ reflexivity | ].
  exact (get_metrics_zero_positives Roc.demo_str "hey_snips" (Roc.demo_wb 0 0 5)
           (Numpy.float64_of_Z 1) [Numpy.float64_of_Z 2] (Roc.demo_sheet 0 0 5)
           _ _ _ _ (or_intror eq_refl) eq_refl eq_refl eq_refl eq_refl eq_refl
           eq_refl).
Defined.

(** X20 at work: 5 or 9 true negatives. *)
Lemma get_metrics_ignores_true_negatives_witness :
  Roc.same_but_tn_wb (Roc.demo_wb 3 1 5) (Roc.demo_wb 3 1 9) /\
  Roc.get_metrics Roc.demo_str "hey_ff" (Roc.demo_wb 3 1 5) [Numpy.float64_of_Z 1]
  = Roc.get_metrics Roc.demo_str "hey_ff" (Roc.demo_wb 3 1 9) [Numpy.float64_of_Z 1].
Proof.
  assert (H : Roc.same_but_tn_wb (Roc.demo_wb 3 1 5) (Roc.demo_wb 3 1 9)).
  { intros key. unfold Roc.demo_wb.
    destruct (String.eqb key "0.5"); [ | exact I ].
    split; [ | split; do 2 eexists; split; reflexivity ].
    intros cell HJ HV. unfold Roc.demo_sheet.
    apply String.eqb_neq in HJ. apply String.eqb_neq in HV.
    rewrite HJ, HV. reflexivity. }
  split; [ exact H | ].
  exact (get_metrics_ignores_true_negatives Roc.demo_str "hey_ff" _ _ _ H).
Defined.
